(** * mkdocs: source-file classification, ordering and filtering
      ([mkdocs/structure/files.py]) and the plugin collection exercised by
      [mkdocs/tests/plugin_tests.py].

    Python [str] values are modelled as [string] (sequences of 8-bit
    characters), integers used as indices as [Z] (so that [rfind]'s [-1] is
    written out), dictionaries as [gmap], ordered containers as lists.

    The functions of Python's standard library that the source calls
    ([os.path.*] in its POSIX flavour, [fnmatch.fnmatch], [sorted],
    [str] methods) are embedded from their reference implementation. *)

From stdpp Require Import gmap strings list fin_maps.
From Stdlib Require Import String Ascii ZArith Lia List Permutation Sorted.
Import ListNotations.
Open Scope string_scope.
Open Scope list_scope.
Open Scope Z_scope.

(** ** Python [str] methods *)

Module str.

(** [s[:n]] for [0 <= n]. *)
Fixpoint take (n : nat) (s : string) : string :=
  match n, s with
  | S n', String a s' => String a (take n' s')
  | _, _ => ""
  end.

(** [s[n:]] for [0 <= n]. *)
Fixpoint drop (n : nat) (s : string) : string :=
  match n, s with
  | S n', String _ s' => drop n' s'
  | _, _ => s
  end.

(** [s.rfind(c)] for a one-character [c]: the highest index at which [c]
    occurs, [-1] when it does not occur. *)
Fixpoint rfind (c : ascii) (s : string) : Z :=
  match s with
  | "" => -1
  | String a s' =>
      let r := rfind c s' in
      if r =? -1 then (if Ascii.eqb a c then 0 else -1) else r + 1
  end.

(** [s.startswith(p)]. *)
Fixpoint startswith (s p : string) {struct p} : bool :=
  match p, s with
  | "", _ => true
  | String b p', String a s' => Ascii.eqb a b && startswith s' p'
  | String _ _, "" => false
  end.

(** [s.endswith(c)] for a one-character [c]. *)
Fixpoint endswith (s : string) (c : ascii) : bool :=
  match s with
  | "" => false
  | String a "" => Ascii.eqb a c
  | String _ s' => endswith s' c
  end.

(** [s.lstrip(c)], [s.rstrip(c)] and [s.strip(c)] for a one-character
    [c]. *)
Fixpoint lstrip (c : ascii) (s : string) : string :=
  match s with
  | String a s' => if Ascii.eqb a c then lstrip c s' else s
  | "" => ""
  end.

Fixpoint rstrip (c : ascii) (s : string) : string :=
  match s with
  | "" => ""
  | String a s' =>
      match rstrip c s' with
      | "" => if Ascii.eqb a c then "" else String a ""
      | r => String a r
      end
  end.

Definition strip (c : ascii) (s : string) : string := rstrip c (lstrip c s).

(** [c * n]: the character repeated. *)
Fixpoint repeat (c : ascii) (n : nat) : string :=
  match n with
  | O => ""
  | S n' => String c (repeat c n')
  end.

(** [s.split(c)]: never the empty list; [''.split('/') = ['']]. *)
Fixpoint split (c : ascii) (s : string) : list string :=
  match s with
  | "" => [""]
  | String a s' =>
      if Ascii.eqb a c then "" :: split c s'
      else match split c s' with
           | h :: t => String a h :: t
           | [] => [String a ""]
           end
  end.

(** [sep.join(l)]. *)
Fixpoint join (sep : string) (l : list string) : string :=
  match l with
  | [] => ""
  | [x] => x
  | x :: l' => (x ++ sep ++ join sep l')%string
  end.

(** [s.lower()] on ASCII text, where only [A]..[Z] change; characters
    outside ASCII are left as they are. *)
Definition lower_char (a : ascii) : ascii :=
  let n := nat_of_ascii a in
  if ((65 <=? n) && (n <=? 90))%nat then ascii_of_nat (n + 32) else a.

Fixpoint lower (s : string) : string :=
  match s with
  | "" => ""
  | String a s' => String (lower_char a) (lower s')
  end.

(** [x in t] for a tuple or list of strings. *)
Definition mem (x : string) (t : list string) : bool :=
  existsb (String.eqb x) t.

End str.

(** ** [os.path] (posixpath) *)

Module os_path.

Definition sep : ascii := "/"%char.
Definition extsep : ascii := "."%char.

(** The [while filenameIndex < dotIndex] loop of [genericpath._splitext]:
    [n] is [dotIndex - filenameIndex]; [true] when the loop returns the
    split at [dotIndex], [false] when it runs out (only leading dots). *)
Fixpoint splitext_scan (p : string) (filenameIndex n : nat) : bool :=
  match n with
  | O => false
  | S n' =>
      match String.get filenameIndex p with
      | Some a =>
          if negb (Ascii.eqb a extsep) then true
          else splitext_scan p (S filenameIndex) n'
      | None => true
      end
  end.

Definition splitext (p : string) : string * string :=
  let sepIndex := str.rfind sep p in
  let dotIndex := str.rfind extsep p in
  if (sepIndex <? dotIndex)
     && splitext_scan p (Z.to_nat (sepIndex + 1))
                      (Z.to_nat (dotIndex - (sepIndex + 1)))
  then (str.take (Z.to_nat dotIndex) p, str.drop (Z.to_nat dotIndex) p)
  else (p, "").

Definition basename (p : string) : string :=
  let i := str.rfind sep p + 1 in
  str.drop (Z.to_nat i) p.

Definition dirname (p : string) : string :=
  let i := str.rfind sep p + 1 in
  let head := str.take (Z.to_nat i) p in
  if negb (String.eqb head "")
     && negb (String.eqb head (str.repeat sep (String.length head)))
  then str.rstrip sep head
  else head.

(** [os.path.join(a, b)] with one further component. *)
Definition join (a b : string) : string :=
  if str.startswith b "/" then b
  else if String.eqb a "" || str.endswith a sep then (a ++ b)%string
  else (a ++ "/" ++ b)%string.

(** One iteration of [for comp in comps] in [normpath]; [new_comps] grows
    and shrinks at its end. *)
Definition normpath_step (initial_slashes : nat)
    (new_comps : list string) (comp : string) : list string :=
  if str.mem comp [""; "."] then new_comps
  else if negb (String.eqb comp "..")
          || ((initial_slashes =? 0)%nat
              && match new_comps with [] => true | _ => false end)
          || match new_comps with
             | [] => false
             | _ => String.eqb (List.last new_comps "") ".."
             end
  then new_comps ++ [comp]
  else match new_comps with
       | [] => new_comps
       | _ => removelast new_comps
       end.

(** POSIX allows one or two initial slashes, but treats three or more
    as single slash. *)
Definition initial_slashes (path : string) : nat :=
  if str.startswith path "/" then
    if str.startswith path "//" && negb (str.startswith path "///")
    then 2%nat else 1%nat
  else 0%nat.

Definition normpath (path : string) : string :=
  if String.eqb path "" then "."
  else
    let initial_slashes := initial_slashes path in
    let comps := str.split sep path in
    let comps := fold_left (normpath_step initial_slashes) comps [] in
    let path := str.join "/" comps in
    let path := (str.repeat sep initial_slashes ++ path)%string in
    if String.eqb path "" then "." else path.

End os_path.

(** ** [mkdocs/structure/files.py]: the [File] class *)

Record File := mkFile {
  root : string;            (* The filename, without any extension. *)
  extension : string;
  input_path : string;
  full_input_path : string;
  output_path : string
}.

Section FileClass.

(** [mkdocs.utils.MARKDOWN_EXTENSIONS] is imported by the module and not
    defined in it: the configured set is a parameter. *)
Variable MARKDOWN_EXTENSIONS : list string.

Definition is_documentation_page (self : File) : bool :=
  str.mem (extension self) MARKDOWN_EXTENSIONS.

Definition is_static_page (self : File) : bool :=
  str.mem (extension self) [".html"; ".htm"; ".xml"; ".json"].

Definition is_media_file (self : File) : bool :=
  negb (is_documentation_page self || is_static_page self).

Definition is_javascript (self : File) : bool :=
  str.mem (extension self) [".js"; ".javascript"].

Definition is_css (self : File) : bool :=
  str.mem (extension self) [".css"].

(** Map input source documents to the output build file. *)
Definition get_output_path (self : File) : string :=
  if is_documentation_page self then
    let directory :=
      if str.mem (root self) ["index"; "README"]
      then os_path.dirname (input_path self)
      else fst (os_path.splitext (input_path self)) in
    os_path.normpath (os_path.join directory "index.html")
  else os_path.normpath (input_path self).

(** [File.__init__(from_dir, path, filename=None)]; [output_path] is
    assigned last, from the attributes set before it. *)
Definition File_init (from_dir path : string) (filename : option string)
    : File :=
  let filename :=
    match filename with
    | None => os_path.basename path
    | Some f => f
    end in
  let '(root0, extension0) := os_path.splitext filename in
  let self := {| root := root0;
                 extension := str.lower extension0;
                 input_path := path;
                 full_input_path :=
                   os_path.normpath (os_path.join from_dir path);
                 output_path := "" |} in
  {| root := root self;
     extension := extension self;
     input_path := input_path self;
     full_input_path := full_input_path self;
     output_path := get_output_path self |}.

End FileClass.

(** ** Python's [sorted] and [functools.cmp_to_key] *)

(** [sorted] is stable and compares keys with [<] only: each element is
    placed behind every earlier element that it is not smaller than. *)
Fixpoint insort {A} (lt : A -> A -> bool) (x : A) (l : list A) : list A :=
  match l with
  | [] => [x]
  | e :: l' => if lt x e then x :: e :: l' else e :: insort lt x l'
  end.

Definition sorted {A} (lt : A -> A -> bool) (l : list A) : list A :=
  fold_left (fun acc x => insort lt x acc) l [].

(** The key class [K] of [cmp_to_key(mycmp)]:
    [K(x) < K(y)] is [mycmp(x, y) < 0]. *)
Definition cmp_to_key {A} (mycmp : A -> A -> Z) (x y : A) : bool :=
  mycmp x y <? 0.

(** ** [sort_files] *)

Definition compare (x y : string) : Z :=
  if String.eqb x y then 0
  else if String.eqb (fst (os_path.splitext y)) "index" then 1
  else if String.eqb (fst (os_path.splitext x)) "index" || String.ltb x y
  then -1
  else 1.

(** Always sort index as first filename in list. *)
Definition sort_files (filenames : list string) : list string :=
  sorted (cmp_to_key compare) filenames.

(** ** [fnmatch.fnmatch] *)

Module fnmatch.

Inductive token :=
| Star                                    (* [*]: any run of characters *)
| Any                                     (* [?]: any one character *)
| Lit (c : ascii)
| Class (negated : bool) (items : string). (* [[seq]] and [[!seq]] *)

(** The text up to the first [c] and the text behind it. *)
Fixpoint until (c : ascii) (s : string) : option (string * string) :=
  match s with
  | "" => None
  | String a s' =>
      if Ascii.eqb a c then Some ("", s')
      else match until c s' with
           | Some (b, r) => Some (String a b, r)
           | None => None
           end
  end.

(** The scan for the closing bracket in [translate]: [s] is the pattern
    behind an opening bracket; a leading [!] and a [[]]] right behind it
    belong to the set. *)
Definition bracket (s : string) : option (string * string) :=
  let '(bang, s1) :=
    match s with
    | String "!"%char t => ("!", t)
    | _ => ("", s)
    end in
  let '(first, s2) :=
    match s1 with
    | String "]"%char t => ("]", t)
    | _ => ("", s1)
    end in
  match until "]"%char s2 with
  | Some (body, rest) => Some ((bang ++ first ++ body)%string, rest)
  | None => None
  end.

Fixpoint translate_loop (fuel : nat) (pat : string) : list token :=
  match fuel, pat with
  | S fuel', String c pat' =>
      if Ascii.eqb c "*" then Star :: translate_loop fuel' pat'
      else if Ascii.eqb c "?" then Any :: translate_loop fuel' pat'
      else if Ascii.eqb c "[" then
        match bracket pat' with
        | None => Lit "[" :: translate_loop fuel' pat'
        | Some (String "!"%char stuff, rest) =>
            Class true stuff :: translate_loop fuel' rest
        | Some (stuff, rest) =>
            Class false stuff :: translate_loop fuel' rest
        end
      else Lit c :: translate_loop fuel' pat'
  | _, _ => []
  end.

Definition translate (pat : string) : list token :=
  translate_loop (String.length pat) pat.

(** Membership in a set of characters and ranges [lo-hi]; a range whose
    bounds are inverted holds no character. *)
Fixpoint in_class (items : string) (c : ascii) : bool :=
  match items with
  | "" => false
  | String lo (String "-"%char (String hi rest)) =>
      ((nat_of_ascii lo <=? nat_of_ascii c)%nat
       && (nat_of_ascii c <=? nat_of_ascii hi)%nat)
      || in_class rest c
  | String a rest => Ascii.eqb a c || in_class rest c
  end.

(** The whole of [name] against the translated pattern. *)
Fixpoint matches (toks : list token) (name : string) : bool :=
  match toks with
  | [] => String.eqb name ""
  | Star :: toks' =>
      (fix star (n : string) : bool :=
         matches toks' n
         || match n with
            | "" => false
            | String _ n' => star n'
            end) name
  | Any :: toks' =>
      match name with
      | String _ n' => matches toks' n'
      | "" => false
      end
  | Lit c :: toks' =>
      match name with
      | String a n' => Ascii.eqb a c && matches toks' n'
      | "" => false
      end
  | Class negated items :: toks' =>
      match name with
      | String a n' => xorb negated (in_class items a) && matches toks' n'
      | "" => false
      end
  end.

(** [os.path.normcase] is the identity on POSIX. *)
Definition fnmatch (name pat : string) : bool :=
  matches (translate pat) name.

End fnmatch.

(** ** [_filter_paths] and [get_files] *)

(** .gitignore style file filtering. *)
Fixpoint _filter_paths (basename path : string) (is_dir : bool)
    (exclude : list string) : bool :=
  match exclude with
  | [] => false
  | item :: exclude' =>
      (* Items ending in '/' apply only to directories. *)
      if str.endswith item "/" && negb is_dir
      then _filter_paths basename path is_dir exclude'
      else
        (* Items starting with '/' apply to the whole path.
           In any other cases just the basename is used. *)
        let match_ := if str.startswith item "/" then path else basename in
        if fnmatch.fnmatch match_ (str.strip "/" item) then true
        else _filter_paths basename path is_dir exclude'
  end.

(** What [os.walk] finds under a directory: the sub-directories with their
    content and the names of the other entries, in listing order. *)
#[warnings="-register-all"]
Inductive tree :=
| Dir (dirs : list (string * tree)) (filenames : list string).

Record Files := mkFiles {
  _files : list File;
  input_paths : gmap string File
}.

Definition Files_init (files : list File) : Files :=
  {| _files := files;
     input_paths :=
       fold_left (fun d file => <[input_path file := file]> d) files ∅ |}.

Section GetFiles.

Variable MARKDOWN_EXTENSIONS : list string.
Variable from_dir : string.

Definition exclude : list string := [".*"; "/templates"].

(** [os.path.relpath(source_dir, from_dir)] for the directory reached
    from [from_dir] through the directories [names]. *)
Definition relpath (names : list string) : string :=
  match names with
  | [] => "."
  | _ => str.join "/" names
  end.

(** The loop [for filename in sort_files(filenames)]. *)
Definition walk_files (relative_dir : string) (filenames : list string)
    : list File :=
  flat_map
    (fun filename =>
       let path := os_path.normpath (os_path.join relative_dir filename) in
       (* Skip any excluded files *)
       if _filter_paths filename path false exclude then []
       else [File_init MARKDOWN_EXTENSIONS from_dir path (Some filename)])
    (sort_files filenames).

(** The body of [for (source_dir, dirnames, filenames) in os.walk(from_dir)]
    at the directory [names], followed by the walk of the sub-directories
    left in [dirnames], in their sorted order. *)
Fixpoint walk (names : list string) (t : tree) : list File :=
  match t with
  | Dir dirs filenames =>
      let relative_dir := relpath names in
      let below :=
        map (fun d => (fst d, walk (names ++ [fst d]) (snd d))) dirs in
      (* Skip any excluded directories *)
      let dirnames :=
        filter
          (fun d =>
             let path :=
               os_path.normpath (os_path.join relative_dir (fst d)) in
             negb (_filter_paths (fst d) path true exclude))
          below in
      let dirnames :=
        sorted (fun d1 d2 => String.ltb (fst d1) (fst d2)) dirnames in
      walk_files relative_dir filenames ++ flat_map snd dirnames
  end.

Definition get_files (t : tree) : Files := Files_init (walk [] t).

End GetFiles.

(** ** The plugin module ([mkdocs.plugins]) *)

(** [mkdocs/plugins.py] and [mkdocs/config] are imported by
    [mkdocs/tests/plugin_tests.py] but are not among the sources: the
    registry, the dispatcher and [load_config] below follow the
    specification (sections 3 and 4.5); [DummyPlugin] follows the test
    module. *)

Module plugins.

(** Modelled from the spec: the raw and validated option values of the
    absent [mkdocs.config]; the tests use strings and integers. *)
Inductive value :=
| VStr (s : string)
| VInt (z : Z).

(** Modelled from the spec: an error or warning message of the absent
    [Config.validate], holding the key name it is about and the reason. *)
Definition message : Type := string * string.

(** Modelled from the spec: an entry (key, validator, default) of a
    [config_scheme]; the validator of the absent [mkdocs.config] returns the
    validated value or the text of its [ValidationError]. *)
Record scheme_entry := mkEntry {
  key : string;
  validator : value -> string + value;
  default : value
}.

(** Modelled from the spec: the errors of the absent [mkdocs.plugins]
    (section 7), and what a handler raises. *)
Inductive error :=
| UnknownHookError (hook : string)
| KeyError (name : string)
| Raised (what : string).           (* an exception of a handler *)

(** A call that returns a value or raises. *)
Definition result (A : Type) : Type := error + A.

Definition bind {A B} (m : result A) (k : A -> result B) : result B :=
  match m with
  | inl e => inl e
  | inr a => k a
  end.

Notation "'let*' x ':=' m 'in' k" := (bind m (fun x => k))
  (at level 10, x name, m at level 100, k at level 200).

(** Modelled from the spec: the defaults of every declared key, the fresh
    mapping by which [loadConfig] of the absent [mkdocs.plugins] replaces
    [config]. *)
Definition defaults (scheme : list scheme_entry) : gmap string value :=
  fold_left (fun c e => <[key e := default e]> c) scheme ∅.

(** Modelled from the spec: the pass of the absent [loadConfig] over the
    declared scheme entries. A present key runs its validator: success stores the validated value,
    failure appends an error with the key name; an absent key gets the
    default. *)
Fixpoint validate_scheme (scheme : list scheme_entry)
    (options config : gmap string value)
    : gmap string value * list message :=
  match scheme with
  | [] => (config, [])
  | e :: scheme' =>
      match options !! key e with
      | Some raw =>
          match validator e raw with
          | inr v => validate_scheme scheme' options (<[key e := v]> config)
          | inl reason =>
              let '(c, errors) := validate_scheme scheme' options config in
              (c, (key e, reason) :: errors)
          end
      | None =>
          validate_scheme scheme' options (<[key e := default e]> config)
      end
  end.

(** Modelled from the spec: the second pass of the absent [loadConfig], one
    warning with the key name for each key of [options] that the scheme does
    not declare; the value is ignored. *)
Definition unknown_keys (scheme : list scheme_entry)
    (options : gmap string value) : list message :=
  map (fun kv => (fst kv, "Unrecognised configuration name"))
      (filter (fun kv => negb (str.mem (fst kv) (map key scheme)))
              (map_to_list options)).

Section Collection.

(** The payload threaded through a hook and the keyword context. *)
Variables (A C : Type).

(** Modelled from the spec: the set of recognized hook names, which the
    specification does not enumerate. *)
Variable EVENTS : list string.

(** Modelled from the spec: what a call of a handler does: return a
    result, return [None], or raise. *)
Inductive outcome :=
| Return (r : option A)
| Raise (what : string).

(** Modelled from the spec: a subclass of the absent [BasePlugin], with its
    scheme and, per hook name, the handler it defines (receiving
    [self.config], the payload and the context). *)
Record PluginClass := mkClass {
  config_scheme : list scheme_entry;
  on : string -> option (gmap string value -> A -> C -> outcome)
}.

(** Modelled from the spec: a plugin instance and the [config] it holds. *)
Record Plugin := mkPlugin {
  class : PluginClass;
  config : gmap string value
}.

(** Modelled from the spec: the instance as constructed, before
    [loadConfig]. *)
Definition new (cls : PluginClass) : Plugin :=
  {| class := cls; config := ∅ |}.

(** Modelled from the spec: [loadConfig(options) -> (errors, warnings)] of
    the absent [BasePlugin]; [config] is replaced, not merged. *)
Definition load_config (self : Plugin) (options : gmap string value)
    : Plugin * (list message * list message) :=
  let scheme := config_scheme (class self) in
  let '(c, errors) := validate_scheme scheme options (defaults scheme) in
  let warnings := unknown_keys scheme options in
  ({| class := class self; config := c |}, (errors, warnings)).

(** Modelled from the spec: the absent [PluginCollection], an
    insertion-ordered mapping from plugin name to instance. *)
Definition PluginCollection : Type := list (string * Plugin).

(** Modelled from the spec: the empty registry, [items()] and the
    membership test of the absent [PluginCollection]. *)
Definition empty : PluginCollection := [].

Definition items (self : PluginCollection) : list (string * Plugin) :=
  self.

Definition contains (self : PluginCollection) (name : string) : bool :=
  str.mem name (map fst self).

(** Modelled from the spec: [set(name, instance)] of the absent
    [PluginCollection] inserts at the end or overwrites in the slot the name
    already has. *)
Fixpoint set (name : string) (instance : Plugin)
    (self : PluginCollection) : PluginCollection :=
  match self with
  | [] => [(name, instance)]
  | (n, p) :: rest =>
      if String.eqb n name then (name, instance) :: rest
      else (n, p) :: set name instance rest
  end.

(** Modelled from the spec: [get(name)] of the absent [PluginCollection],
    the instance or [KeyError]. *)
Fixpoint get (name : string) (self : PluginCollection) : result Plugin :=
  match self with
  | [] => inl (KeyError name)
  | (n, p) :: rest => if String.eqb n name then inr p else get name rest
  end.

(** Modelled from the spec: the loop of the absent [HookDispatcher.run]
    ([run_event]) over the pairs of [items()]. The state is the payload and the names of the
    plugins whose handler has been called so far. *)
Fixpoint run_loop (hook : string) (context : C)
    (plugins : list (string * Plugin)) (st : A * list string)
    : result (A * list string) :=
  match plugins with
  | [] => inr st
  | (name, instance) :: rest =>
      let* st' :=
        match on (class instance) hook with
        | None => inr st
        | Some handler =>
            match handler (config instance) (fst st) context with
            | Return (Some r) => inr (r, snd st ++ [name])
            | Return None => inr (fst st, snd st ++ [name])
            | Raise what => inl (Raised what)
            end
        end in
      run_loop hook context rest st'
  end.

(** Modelled from the spec: the absent [HookDispatcher.run] with the names
    of the plugins it called; a hook name outside the recognized set fails
    with [UnknownHookError] (the test module expects a [KeyError]). *)
Definition run_traced (self : PluginCollection) (hook : string)
    (payload : A) (context : C) : result (A * list string) :=
  if str.mem hook EVENTS
  then run_loop hook context (items self) (payload, [])
  else inl (UnknownHookError hook).

(** Modelled from the spec: the absent [HookDispatcher.run(hookName,
    payload, **context) -> payload']. *)
Definition run_event (self : PluginCollection) (hook : string)
    (payload : A) (context : C) : result A :=
  let* st := run_traced self hook payload context in
  inr (fst st).

End Collection.

Arguments Return {A} r.
Arguments Raise {A} what.
Arguments mkClass {A C} _ _.
Arguments config_scheme {A C} _.
Arguments on {A C} _ _.
Arguments class {A C} _.
Arguments config {A C} _.
Arguments new {A C} cls.
Arguments load_config {A C} self options.
Arguments empty {A C}.
Arguments items {A C} self.
Arguments contains {A C} self name.
Arguments set {A C} name instance self.
Arguments get {A C} name self.
Arguments run_loop {A C} hook context plugins st.
Arguments run_traced {A C} EVENTS self hook payload context.
Arguments run_event {A C} EVENTS self hook payload context.

(** Modelled from the spec: the validators of the absent
    [config_options], [Type(utils.string_types, default=...)] and
    [Type(int, default=...)], which accept a value of their type and
    reject any other with a [ValidationError]. *)
Definition Type_str (default : string) (k : string) : scheme_entry :=
  {| key := k;
     validator := fun raw =>
       match raw with
       | VStr _ => inr raw
       | VInt _ => inl "Expected type: str but received: int"
       end;
     default := VStr default |}.

Definition Type_int (default : Z) (k : string) : scheme_entry :=
  {| key := k;
     validator := fun raw =>
       match raw with
       | VInt _ => inr raw
       | VStr _ => inl "Expected type: int but received: str"
       end;
     default := VInt default |}.

(** [DummyPlugin] of [mkdocs/tests/plugin_tests.py]. *)
Definition DummyPlugin : PluginClass string unit :=
  {| config_scheme := [Type_str "default foo" "foo"; Type_int 0 "bar"];
     on := fun hook =>
       if String.eqb hook "pre_page" then
         (* prepend `foo` config value to page content. *)
         Some (fun config content _ =>
                 match config !! "foo" with
                 | Some (VStr foo) =>
                     Return (Some (str.join " " [foo; content]))
                 | Some (VInt _) => Raise "TypeError"
                 | None => Raise "KeyError"
                 end)
       else if String.eqb hook "post_nav" then
         (* do nothing (return None) to not modify item. *)
         Some (fun _ _ _ => Return None)
       else None |}.

End plugins.

(** ** [mkdocs/structure/files.py]: the views of the [Files] class *)

Section FilesClass.

Variable MARKDOWN_EXTENSIONS : list string.

(** [Files.__iter__] and [Files.__len__]. *)
Definition Files_iter (self : Files) : list File := _files self.

Definition Files_len (self : Files) : nat := List.length (_files self).

Definition documentation_pages (self : Files) : list File :=
  filter (is_documentation_page MARKDOWN_EXTENSIONS) (Files_iter self).

Definition static_pages (self : Files) : list File :=
  filter is_static_page (Files_iter self).

Definition media_files (self : Files) : list File :=
  filter (is_media_file MARKDOWN_EXTENSIONS) (Files_iter self).

Definition javascript_files (self : Files) : list File :=
  filter is_javascript (Files_iter self).

Definition css_files (self : Files) : list File :=
  filter is_css (Files_iter self).

End FilesClass.

(** ** Predicates used by the statements *)

(** The root of a filename (the name without its extension) is [index]. *)
Definition is_index (x : string) : bool :=
  String.eqb (fst (os_path.splitext x)) "index".

(** The filename a [File] is built from: the one given, or the last
    component of the path. *)
Definition filename_of (path : string) (filename : option string) : string :=
  match filename with
  | None => os_path.basename path
  | Some f => f
  end.

(** [collection[name] = instance] for the pairs of [l], one after the
    other. *)
Definition register_all {A C} (l : list (string * plugins.Plugin A C))
    (self : plugins.PluginCollection A C) : plugins.PluginCollection A C :=
  fold_left (fun c np => plugins.set (fst np) (snd np) c) l self.

(** The plugin defines a handler for the hook. *)
Definition defines {A C} (hook : string) (np : string * plugins.Plugin A C)
    : bool :=
  match plugins.on (plugins.class (snd np)) hook with
  | Some _ => true
  | None => false
  end.

(** A [DummyPlugin] whose [foo] option is set. *)
Definition dummy (foo : string) : plugins.Plugin string unit :=
  fst (plugins.load_config (plugins.new plugins.DummyPlugin)
         {[ "foo" := plugins.VStr foo ]}).


(** The string holds no path separator. *)
Fixpoint nosep (s : string) : bool :=
  match s with
  | "" => true
  | String a s' => negb (Ascii.eqb a os_path.sep) && nosep s'
  end.

(** A path component that [normpath] keeps as it is. *)
Definition plain (c : string) : Prop :=
  nosep c = true /\ c <> "" /\ c <> "." /\ c <> "..".

(** The components of a normalized path: parent references first, and none
    below a root. *)
Definition normal (initial_slashes : nat) (comps : list string) : Prop :=
  exists n m,
    comps = List.repeat ".." n ++ m
    /\ Forall plain m
    /\ (initial_slashes <> 0%nat -> n = 0%nat).

(** The list is sorted by the order [lt] of the keys: no element is below
    one that stands before it. *)
Definition ordered {A} (lt : A -> A -> bool) (l : list A) : Prop :=
  StronglySorted (fun a b => lt b a = false) l.

(** No character of the string is one of [A]..[Z]. *)
Fixpoint lowercase (s : string) : bool :=
  match s with
  | "" => true
  | String a s' =>
      negb ((65 <=? nat_of_ascii a)%nat && (nat_of_ascii a <=? 90)%nat)
      && lowercase s'
  end.

(** Every character of the string is an ASCII character. *)
Fixpoint ascii_only (s : string) : bool :=
  match s with
  | "" => true
  | String a s' => (nat_of_ascii a <? 128)%nat && ascii_only s'
  end.

(** Whether a pattern of an exclusion list applies to an entry: the body of
    the loop of [_filter_paths] for one item. *)
Definition excludes (basename path : string) (is_dir : bool)
    (item : string) : bool :=
  _filter_paths basename path is_dir [item].

(** * Properties *)

(** ** Output paths *)

Lemma File_init_fields exts from_dir path filename :
  let f := File_init exts from_dir path filename in
  root f = fst (os_path.splitext (filename_of path filename))
  /\ extension f = str.lower (snd (os_path.splitext (filename_of path filename)))
  /\ input_path f = path
  /\ full_input_path f = os_path.normpath (os_path.join from_dir path).
Proof.
  unfold File_init, filename_of.
  destruct filename as [n|];
    destruct (os_path.splitext _) as [r e]; simpl; auto.
Qed.

Lemma File_init_output_path exts from_dir path filename :
  let f := File_init exts from_dir path filename in
  output_path f = get_output_path exts f.
Proof.
  unfold File_init.
  destruct filename as [n|];
    destruct (os_path.splitext _) as [r e]; reflexivity.
Qed.

(** C1: for a documentation page the output path is the normalized join of
    a directory and [index.html]; the directory is the parent directory of
    the input path when the filename root is [index] or [README], and the
    input path without its extension otherwise. With [.md] and [.markdown]
    configured, [docs/page.md], [docs/index.md] and [docs/README.markdown]
    map to [docs/page/index.html], [docs/index.html] and
    [docs/index.html]. *)
Theorem C1_documentation_page_output_path :
  forall (exts : list string) (from_dir : string),
    (forall path filename,
        let f := File_init exts from_dir path filename in
        is_documentation_page exts f = true ->
        root f = fst (os_path.splitext (filename_of path filename))
        /\ output_path f =
             os_path.normpath
               (os_path.join
                  (if str.mem (root f) ["index"; "README"]
                   then os_path.dirname path
                   else fst (os_path.splitext path))
                  "index.html"))
    /\ (str.mem ".md" exts = true ->
        output_path (File_init exts from_dir "docs/page.md" None)
          = "docs/page/index.html"
        /\ output_path (File_init exts from_dir "docs/index.md" None)
          = "docs/index.html")
    /\ (str.mem ".markdown" exts = true ->
        output_path (File_init exts from_dir "docs/README.markdown" None)
          = "docs/index.html").
Proof.
  intros exts from_dir. split; [|split].
  - intros path filename f Hdoc.
    destruct (File_init_fields exts from_dir path filename)
      as (Hroot & _ & Hin & _).
    fold f in Hroot, Hin. split; [exact Hroot|].
    unfold f at 1. rewrite File_init_output_path. fold f.
    unfold get_output_path. rewrite Hdoc, Hin. reflexivity.
  - intros Hmd. split; rewrite File_init_output_path;
      unfold get_output_path, is_documentation_page.
    + change (extension (File_init exts from_dir "docs/page.md" None))
        with ".md".
      rewrite Hmd. reflexivity.
    + change (extension (File_init exts from_dir "docs/index.md" None))
        with ".md".
      rewrite Hmd. reflexivity.
  - intros Hmd. rewrite File_init_output_path.
    unfold get_output_path, is_documentation_page.
    change (extension (File_init exts from_dir "docs/README.markdown" None))
      with ".markdown".
    rewrite Hmd. reflexivity.
Qed.

Lemma C1_witness :
  let exts := [".markdown"; ".mdown"; ".mkdn"; ".mkd"; ".md"] in
  output_path (File_init exts "docs" "docs/page.md" None)
    = "docs/page/index.html"
  /\ output_path (File_init exts "docs" "docs/index.md" None)
    = "docs/index.html"
  /\ output_path (File_init exts "docs" "docs/README.markdown" None)
    = "docs/index.html"
  /\ output_path (File_init exts "docs" "a/b/Guide.MD" None)
    = "a/b/Guide/index.html".
Proof.
  intro exts.
  destruct (C1_documentation_page_output_path exts "docs") as (Hall & Hmd & Hmk).
  destruct (Hmd eq_refl) as [H1 H2].
  pose proof (Hmk eq_refl) as H3.
  destruct (Hall "a/b/Guide.MD" None eq_refl) as [_ H4].
  split; [exact H1 | split; [exact H2 | split; [exact H3 | ]]].
  rewrite H4. reflexivity.
Defined.

(** ** [normpath] is idempotent *)

Section Normpath.

Import os_path.

Lemma split_nosep s : Forall (fun c => nosep c = true) (str.split sep s).
Proof.
  induction s as [|a s IH]; simpl.
  - repeat constructor.
  - destruct (Ascii.eqb a sep) eqn:Ha.
    + constructor; [reflexivity | exact IH].
    + destruct (str.split sep s) as [|h t].
      * repeat constructor. simpl. rewrite Ha. reflexivity.
      * inversion_clear IH as [|? ? Hh Ht]. constructor; [|exact Ht].
        simpl. rewrite Ha, Hh. reflexivity.
Qed.

Lemma split_cons a b :
  nosep a = true ->
  str.split sep (a ++ String sep b) = a :: str.split sep b.
Proof.
  induction a as [|x a IH]; simpl; intros Ha.
  - reflexivity.
  - apply andb_prop in Ha. destruct Ha as [Hx Ha].
    apply negb_true_iff in Hx. rewrite Hx, (IH Ha). reflexivity.
Qed.

Lemma split_one a : nosep a = true -> str.split sep a = [a].
Proof.
  induction a as [|x a IH]; simpl; intros Ha.
  - reflexivity.
  - apply andb_prop in Ha. destruct Ha as [Hx Ha].
    apply negb_true_iff in Hx. rewrite Hx, (IH Ha). reflexivity.
Qed.

Lemma split_join comps :
  comps <> [] ->
  Forall (fun c => nosep c = true) comps ->
  str.split sep (str.join "/" comps) = comps.
Proof.
  intros Hne Hall. induction Hall as [|x l Hx Hl IH]; [contradiction|].
  destruct l as [|y l].
  - simpl. apply split_one. exact Hx.
  - change (str.join "/" (x :: y :: l))
      with (x ++ String sep (str.join "/" (y :: l)))%string.
    rewrite split_cons by exact Hx. f_equal. apply IH. discriminate.
Qed.

Lemma split_slashes k s :
  str.split sep (str.repeat sep k ++ s) = List.repeat "" k ++ str.split sep s.
Proof.
  induction k as [|k IH]; simpl; [reflexivity|].
  rewrite IH. reflexivity.
Qed.

Lemma step_skip k acc c :
  c = "" \/ c = "." -> normpath_step k acc c = acc.
Proof. intros [->| ->]; reflexivity. Qed.

Lemma step_push k acc c :
  c <> "" -> c <> "." ->
  c <> ".." \/ (k = 0%nat /\ acc = []) \/ (acc <> [] /\ List.last acc "" = "..") ->
  normpath_step k acc c = acc ++ [c].
Proof.
  intros H1 H2 Hpush. unfold normpath_step, str.mem. simpl existsb.
  apply String.eqb_neq in H1, H2. rewrite H1, H2. simpl orb at 1.
  cbv iota.
  destruct Hpush as [H3|[[-> ->]|[Hacc Hlast]]].
  - apply String.eqb_neq in H3. rewrite H3. reflexivity.
  - simpl. rewrite orb_true_r. reflexivity.
  - destruct acc as [|a acc]; [contradiction|].
    rewrite Hlast. simpl. rewrite !orb_true_r. reflexivity.
Qed.

Lemma step_pop k acc :
  ~ (k = 0%nat /\ acc = []) ->
  ~ (acc <> [] /\ List.last acc "" = "..") ->
  normpath_step k acc ".." = removelast acc.
Proof.
  intros Hfirst Hlast. unfold normpath_step.
  change (str.mem ".." [""; "."]) with false.
  change (negb (String.eqb ".." "..")) with false. cbv iota.
  destruct acc as [|a acc].
  - destruct k as [|k]; [exfalso; apply Hfirst; auto|]. reflexivity.
  - assert (Hl : String.eqb (List.last (a :: acc) "") ".." = false).
    { apply String.eqb_neq. intros Heq. apply Hlast.
      split; [discriminate|exact Heq]. }
    rewrite Hl, andb_false_r. reflexivity.
Qed.

Lemma plain_nosep c : plain c -> nosep c = true.
Proof. intros H. apply H. Qed.

Lemma repeat_snoc {X} (x : X) n : List.repeat x n ++ [x] = List.repeat x (S n).
Proof. induction n as [|n IH]; simpl; [reflexivity|]. rewrite IH. reflexivity. Qed.

Lemma last_repeat (x d : string) n : List.last (List.repeat x (S n)) d = x.
Proof.
  induction n as [|n IH]; [reflexivity|].
  change (List.repeat x (S (S n))) with (x :: List.repeat x (S n)).
  change (List.last (x :: List.repeat x (S n)) d)
    with (List.last (List.repeat x (S n)) d).
  exact IH.
Qed.

Lemma last_app_r {X} (l m : list X) d :
  m <> [] -> List.last (l ++ m) d = List.last m d.
Proof.
  intros Hm. induction l as [|x l IH]; [reflexivity|].
  simpl. rewrite IH. destruct (l ++ m) eqn:E; [|reflexivity].
  apply app_eq_nil in E. destruct E as [_ E]. contradiction.
Qed.

Lemma step_normal k acc c :
  nosep c = true -> normal k acc -> normal k (normpath_step k acc c).
Proof.
  intros Hc (n & m & -> & Hm & Hk).
  destruct (String.eqb_spec c "") as [->|H1];
    [rewrite step_skip by auto; exists n, m; auto|].
  destruct (String.eqb_spec c ".") as [->|H2];
    [rewrite step_skip by auto; exists n, m; auto|].
  destruct (String.eqb_spec c "..") as [->|H3].
  - destruct m as [|x m].
    + rewrite app_nil_r. destruct n as [|n].
      * destruct k as [|k].
        -- simpl List.repeat.
           rewrite step_push by auto. exists 1%nat, [].
           split; [reflexivity|]. split; [constructor|].
           intros H. contradiction.
        -- simpl List.repeat.
           rewrite step_pop by (intros [H _]; congruence).
           exists 0%nat, []. auto.
      * assert (k = 0%nat) as ->.
        { destruct k; [reflexivity|]. discriminate Hk. discriminate. }
        rewrite step_push.
        -- rewrite repeat_snoc. exists (S (S n)), [].
           rewrite app_nil_r. split; [reflexivity|].
           split; [constructor|]. intros H. contradiction.
        -- discriminate.
        -- discriminate.
        -- right. right. split; [discriminate|apply last_repeat].
    + assert (Hne : x :: m <> []) by discriminate.
      assert (Hlast : plain (List.last (x :: m) "")).
      { rewrite Forall_forall in Hm. apply Hm.
        rewrite (app_removelast_last "" Hne) at 2.
        apply in_or_app. right. left. reflexivity. }
      rewrite step_pop.
      * rewrite removelast_app by exact Hne.
        exists n, (removelast (x :: m)). split; [reflexivity|].
        split; [|exact Hk].
        rewrite Forall_forall in Hm |- *. intros y Hy. apply Hm.
        rewrite (app_removelast_last "" Hne).
        apply in_or_app. left. exact Hy.
      * intros [_ H]. apply app_eq_nil in H. destruct H as [_ H].
        discriminate.
      * intros [_ H]. rewrite last_app_r in H by exact Hne.
        destruct Hlast as (_ & _ & _ & Hdd). contradiction.
  - rewrite step_push by auto. exists n, (m ++ [c]).
    split; [rewrite app_assoc; reflexivity|]. split; [|exact Hk].
    apply Forall_app. split; [exact Hm|]. repeat constructor; assumption.
Qed.

Lemma fold_normal_inv k comps : forall acc,
  Forall (fun c => nosep c = true) comps ->
  normal k acc ->
  normal k (fold_left (normpath_step k) comps acc).
Proof.
  induction comps as [|c comps IH]; intros acc Hall Hacc; simpl.
  - exact Hacc.
  - inversion_clear Hall as [|? ? Hc Hcomps].
    apply IH; [exact Hcomps|]. apply step_normal; assumption.
Qed.

Lemma fold_dotdots n : forall j,
  fold_left (normpath_step 0) (List.repeat ".." n) (List.repeat ".." j)
  = List.repeat ".." (j + n).
Proof.
  induction n as [|n IH]; intros j; simpl.
  - rewrite Nat.add_0_r. reflexivity.
  - rewrite step_push.
    + rewrite repeat_snoc, IH. f_equal. lia.
    + discriminate.
    + discriminate.
    + right. destruct j as [|j]; [left; auto|right].
      split; [discriminate|apply last_repeat].
Qed.

Lemma fold_plain k m : forall acc,
  Forall plain m -> fold_left (normpath_step k) m acc = acc ++ m.
Proof.
  induction m as [|c m IH]; intros acc Hm; simpl.
  - rewrite app_nil_r. reflexivity.
  - inversion_clear Hm as [|? ? Hc Hm'].
    destruct Hc as (_ & H1 & H2 & H3).
    rewrite step_push by auto. rewrite IH by exact Hm'.
    rewrite <- app_assoc. reflexivity.
Qed.

Lemma fold_empties k comps : forall j acc,
  fold_left (normpath_step k) (List.repeat "" j ++ comps) acc
  = fold_left (normpath_step k) comps acc.
Proof.
  induction j as [|j IH]; intros acc; simpl; [reflexivity|].
  rewrite step_skip by auto. apply IH.
Qed.

Lemma fold_normal k comps :
  normal k comps -> fold_left (normpath_step k) comps [] = comps.
Proof.
  intros (n & m & -> & Hm & Hk). rewrite fold_left_app.
  destruct k as [|k].
  - pose proof (fold_dotdots n 0) as Hdd. simpl in Hdd.
    rewrite Hdd. apply fold_plain. exact Hm.
  - rewrite Hk by discriminate. simpl. apply fold_plain. exact Hm.
Qed.

Lemma normal_nosep k comps :
  normal k comps -> Forall (fun c => nosep c = true) comps.
Proof.
  intros (n & m & -> & Hm & _). apply Forall_app. split.
  - clear. induction n; simpl; constructor; [reflexivity|assumption].
  - eapply Forall_impl; [|exact Hm]. intros c Hc. apply Hc.
Qed.

(** The joined components do not start with a separator. *)
Lemma join_head k comps :
  normal k comps -> str.startswith (str.join "/" comps) "/" = false.
Proof.
  intros (n & m & -> & Hm & _).
  destruct n as [|n].
  - destruct Hm as [|c m Hc Hm]; [reflexivity|].
    destruct Hc as (Hsep & Hne & _).
    destruct c as [|a c]; [contradiction|]. simpl in Hsep.
    apply andb_prop in Hsep. destruct Hsep as [Ha _].
    apply negb_true_iff in Ha. unfold sep in Ha.
    simpl. destruct m; simpl; rewrite Ha; reflexivity.
  - simpl. destruct (List.repeat ".." n ++ m); reflexivity.
Qed.

Lemma initial_slashes_bound p : (initial_slashes p <= 2)%nat.
Proof.
  unfold initial_slashes.
  destruct (str.startswith p "/"); [|lia].
  destruct (_ && _); lia.
Qed.

Lemma initial_slashes_rebuilt k j :
  (k <= 2)%nat ->
  str.startswith j "/" = false ->
  initial_slashes (str.repeat sep k ++ j) = k.
Proof.
  intros Hk Hj.
  destruct j as [|a j];
    [destruct k as [|[|[|k]]]; [reflexivity|reflexivity|reflexivity|lia]|].
  simpl in Hj. rewrite andb_true_r in Hj.
  destruct k as [|[|[|k]]]; [| | |lia]; unfold initial_slashes; simpl;
    rewrite Hj; reflexivity.
Qed.

Lemma normpath_shape p :
  normpath p = "."
  \/ exists k comps,
       (k <= 2)%nat /\ normal k comps
       /\ (str.repeat sep k ++ str.join "/" comps)%string <> ""
       /\ normpath p = (str.repeat sep k ++ str.join "/" comps)%string.
Proof.
  unfold normpath.
  destruct (String.eqb p ""); [left; reflexivity|].
  set (k := initial_slashes p).
  set (comps := fold_left (normpath_step k) (str.split sep p) []).
  cbv zeta.
  destruct (String.eqb_spec (str.repeat sep k ++ str.join "/" comps) "")
    as [Hq|Hq]; [left; reflexivity|].
  right. exists k, comps.
  split; [apply initial_slashes_bound|]. split; [|split; [exact Hq|reflexivity]].
  apply fold_normal_inv; [apply split_nosep|].
  exists 0%nat, []. split; [reflexivity|]. split; [constructor|reflexivity].
Qed.

Lemma normpath_rebuilt k comps :
  (k <= 2)%nat -> normal k comps ->
  (str.repeat sep k ++ str.join "/" comps)%string <> "" ->
  normpath (str.repeat sep k ++ str.join "/" comps)
  = (str.repeat sep k ++ str.join "/" comps)%string.
Proof.
  intros Hk Hnormal Hq. unfold normpath.
  apply String.eqb_neq in Hq. rewrite Hq.
  rewrite initial_slashes_rebuilt
    by (try exact Hk; exact (join_head k comps Hnormal)).
  rewrite split_slashes, fold_empties.
  assert (Hfold : fold_left (normpath_step k)
                    (str.split sep (str.join "/" comps)) [] = comps).
  { destruct comps as [|c comps'] eqn:Hcomps; [reflexivity|].
    rewrite split_join;
      [apply fold_normal; exact Hnormal | discriminate
      | exact (normal_nosep k _ Hnormal)]. }
  rewrite Hfold, Hq. reflexivity.
Qed.

Theorem normpath_idempotent p : normpath (normpath p) = normpath p.
Proof.
  destruct (normpath_shape p) as [->|(k & comps & Hk & Hn & Hq & ->)].
  - reflexivity.
  - apply normpath_rebuilt; assumption.
Qed.

End Normpath.

(** ** The filename ordering *)

Section Ordering.

Let key := cmp_to_key compare.

Lemma ltb_irrefl x : String.ltb x x = false.
Proof.
  unfold String.ltb.
  pose proof (String.compare_antisym x x) as H.
  destruct (String.compare x x); simpl in H; [reflexivity|discriminate|reflexivity].
Qed.

Lemma key_index_r x y : is_index y = true -> key x y = false.
Proof.
  unfold key, cmp_to_key, compare, is_index. intros ->.
  destruct (String.eqb x y); reflexivity.
Qed.

Lemma key_index_l x y :
  is_index x = true -> is_index y = false -> key x y = true.
Proof.
  unfold key, cmp_to_key, compare, is_index. intros Hx Hy.
  destruct (String.eqb_spec x y) as [->|_]; [congruence|].
  rewrite Hy, Hx. reflexivity.
Qed.

Lemma key_plain x y :
  is_index x = false -> is_index y = false -> key x y = String.ltb x y.
Proof.
  unfold key, cmp_to_key, compare, is_index. intros Hx Hy.
  destruct (String.eqb_spec x y) as [->|_].
  - rewrite ltb_irrefl. reflexivity.
  - rewrite Hy, Hx. simpl. destruct (String.ltb x y); reflexivity.
Qed.

Lemma insort_Forall {A} (P : A -> Prop) lt x l :
  P x -> Forall P l -> Forall P (insort lt x l).
Proof.
  intros Hx. induction 1 as [|e l He Hl IH]; simpl.
  - repeat constructor. exact Hx.
  - destruct (lt x e); repeat constructor; assumption.
Qed.

Lemma insort_Permutation {A} (lt : A -> A -> bool) x l :
  Permutation (insort lt x l) (x :: l).
Proof.
  induction l as [|e l IH]; simpl; [reflexivity|].
  destruct (lt x e); [reflexivity|].
  rewrite IH. apply perm_swap.
Qed.

Lemma sorted_acc_Permutation {A} (lt : A -> A -> bool) l acc :
  Permutation (fold_left (fun acc x => insort lt x acc) l acc) (l ++ acc).
Proof.
  revert acc. induction l as [|x l IH]; intros acc; simpl; [reflexivity|].
  rewrite IH, insort_Permutation. symmetry. apply Permutation_middle.
Qed.

Lemma sorted_Permutation {A} (lt : A -> A -> bool) l :
  Permutation (sorted lt l) l.
Proof.
  unfold sorted. rewrite sorted_acc_Permutation, app_nil_r. reflexivity.
Qed.

Lemma sorted_acc_Forall {A} (P : A -> Prop) lt l acc :
  Forall P l -> Forall P acc ->
  Forall P (fold_left (fun acc x => insort lt x acc) l acc).
Proof.
  intros Hl. revert acc. induction Hl as [|x l Hx Hl IH]; intros acc Hacc;
    simpl; [assumption|].
  apply IH, insort_Forall; assumption.
Qed.

Let indexes := Forall (fun e => is_index e = true).
Let others := Forall (fun e => is_index e = false).

Lemma insort_index x I N :
  is_index x = true -> indexes I -> others N ->
  insort key x (I ++ N) = I ++ x :: N.
Proof.
  intros Hx HI HN. induction HI as [|e I He HI IH]; simpl.
  - destruct HN as [|e N He HN]; simpl; [reflexivity|].
    rewrite key_index_l by assumption. reflexivity.
  - rewrite key_index_r by assumption. rewrite IH. reflexivity.
Qed.

Lemma insort_plain x I N :
  is_index x = false -> indexes I -> others N ->
  insort key x (I ++ N) = I ++ insort String.ltb x N.
Proof.
  intros Hx HI HN. induction HI as [|e I He HI IH]; simpl.
  - induction HN as [|e N He HN IH]; simpl; [reflexivity|].
    rewrite key_plain by assumption.
    destruct (String.ltb x e); [reflexivity|]. rewrite IH. reflexivity.
  - rewrite key_index_r by assumption. rewrite IH. reflexivity.
Qed.

Lemma sort_files_acc l : forall I N,
  indexes I -> others N ->
  fold_left (fun acc x => insort key x acc) l (I ++ N)
  = (I ++ filter is_index l)
    ++ fold_left (fun acc x => insort String.ltb x acc)
         (filter (fun x => negb (is_index x)) l) N.
Proof.
  induction l as [|x l IH]; intros I N HI HN; simpl.
  - rewrite app_nil_r. reflexivity.
  - destruct (is_index x) eqn:Hx; simpl.
    + rewrite insort_index by assumption.
      change (I ++ x :: N) with (I ++ [x] ++ N).
      rewrite app_assoc, IH.
      * rewrite <- (app_assoc I [x]). reflexivity.
      * apply Forall_app; split; [assumption|].
        repeat constructor. exact Hx.
      * assumption.
    + rewrite insort_plain by assumption.
      apply IH; [assumption|].
      apply insort_Forall; assumption.
Qed.

(** The sort is a stable partition: the [index] files in their listing
    order, then the other names in lexicographic order. *)
Lemma sort_files_partition filenames :
  sort_files filenames
  = filter is_index filenames
    ++ sorted String.ltb (filter (fun x => negb (is_index x)) filenames).
Proof.
  unfold sort_files, sorted at 1.
  apply (sort_files_acc filenames [] []); constructor.
Qed.

End Ordering.

Lemma filter_Forall_true {A} (f : A -> bool) l :
  Forall (fun e => f e = true) (filter f l).
Proof.
  induction l as [|x l IH]; simpl; [constructor|].
  destruct (f x) eqn:E; [constructor|]; assumption.
Qed.

(** *** The insertion sort sorts *)

Section Insort.

Context {A : Type} (lt : A -> A -> bool).
Hypothesis lt_asym : forall x y, lt x y = true -> lt y x = false.
Hypothesis lt_trans :
  forall x y z, lt x y = true -> lt y z = true -> lt x z = true.

Lemma insort_ordered x l : ordered lt l -> ordered lt (insort lt x l).
Proof.
  unfold ordered. induction 1 as [|e l Hl IH He]; simpl.
  - repeat constructor.
  - destruct (lt x e) eqn:Hxe.
    + constructor; [constructor; assumption|].
      constructor; [apply lt_asym; exact Hxe|].
      eapply Forall_impl; [|exact He]. intros z Hz. simpl in *.
      destruct (lt z x) eqn:Hzx; [|reflexivity].
      rewrite (lt_trans z x e Hzx Hxe) in Hz. discriminate.
    + constructor; [exact IH|].
      apply insort_Forall; assumption.
Qed.

Lemma sorted_ordered l : ordered lt (sorted lt l).
Proof.
  unfold sorted.
  assert (H : forall acc, ordered lt acc ->
                ordered lt (fold_left (fun acc x => insort lt x acc) l acc)).
  { induction l as [|x l IH]; intros acc Hacc; simpl; [exact Hacc|].
    apply IH, insort_ordered, Hacc. }
  apply H. constructor.
Qed.

End Insort.

Lemma ordered_nth {A} (lt : A -> A -> bool) l :
  ordered lt l ->
  forall i j x y,
    (i < j)%nat -> nth_error l i = Some x -> nth_error l j = Some y ->
    lt y x = false.
Proof.
  unfold ordered. induction 1 as [|e l Hl IH He]; intros i j x y Hij Hi Hj.
  - destruct i; discriminate.
  - destruct j as [|j]; [lia|]. simpl in Hj. destruct i as [|i].
    + injection Hi as <-. apply nth_error_In in Hj.
      rewrite Forall_forall in He. apply He. exact Hj.
    + simpl in Hi. apply (IH i j); [lia|assumption|assumption].
Qed.

(** *** The order of the sort keys *)

Lemma ascii_compare_lt a b :
  Ascii.compare a b = Lt <-> (N_of_ascii a < N_of_ascii b)%N.
Proof. unfold Ascii.compare. apply N.compare_lt_iff. Qed.

Lemma compare_lt_trans x : forall y z,
  String.compare x y = Lt -> String.compare y z = Lt ->
  String.compare x z = Lt.
Proof.
  induction x as [|a x IH]; intros [|b y] [|c z]; simpl;
    try discriminate; try reflexivity.
  destruct (Ascii.compare a b) eqn:Hab; try discriminate.
  - apply Ascii.compare_eq_iff in Hab. subst b.
    destruct (Ascii.compare a c); try discriminate; [apply IH|reflexivity].
  - intros _. destruct (Ascii.compare b c) eqn:Hbc; try discriminate.
    + apply Ascii.compare_eq_iff in Hbc. subst c. rewrite Hab. reflexivity.
    + intros _.
      apply (proj1 (ascii_compare_lt _ _)) in Hab.
      apply (proj1 (ascii_compare_lt _ _)) in Hbc.
      assert (Hac : Ascii.compare a c = Lt) by (apply ascii_compare_lt; lia).
      rewrite Hac. reflexivity.
Qed.

Lemma ltb_trans x y z :
  String.ltb x y = true -> String.ltb y z = true -> String.ltb x z = true.
Proof.
  unfold String.ltb. intros Hxy Hyz.
  destruct (String.compare x y) eqn:Exy; try discriminate.
  destruct (String.compare y z) eqn:Eyz; try discriminate.
  rewrite (compare_lt_trans x y z Exy Eyz). reflexivity.
Qed.

Lemma ltb_asym x y : String.ltb x y = true -> String.ltb y x = false.
Proof.
  unfold String.ltb. rewrite (String.compare_antisym y x).
  destruct (String.compare x y); simpl; congruence.
Qed.

(** The sort key is [true] exactly when [y] is no index file and [x] is one
    or is the smaller name. *)
Lemma key_true x y :
  cmp_to_key compare x y = true
  <-> is_index y = false
      /\ (is_index x = true \/ String.ltb x y = true).
Proof.
  destruct (is_index y) eqn:Hy.
  - rewrite key_index_r by exact Hy. split; [discriminate|].
    intros [H _]. discriminate.
  - destruct (is_index x) eqn:Hx.
    + rewrite key_index_l by assumption. tauto.
    + rewrite key_plain by assumption. split; [tauto|].
      intros [_ [H|H]]; [discriminate|exact H].
Qed.

Lemma key_asym x y :
  cmp_to_key compare x y = true -> cmp_to_key compare y x = false.
Proof.
  intros Hxy. apply key_true in Hxy. destruct Hxy as [Hy Hx].
  destruct (cmp_to_key compare y x) eqn:Hyx; [|reflexivity].
  apply key_true in Hyx. destruct Hyx as [Hx' Hy'].
  destruct Hx as [Hx|Hx]; [congruence|].
  destruct Hy' as [Hy'|Hy']; [congruence|].
  rewrite (ltb_asym x y Hx) in Hy'. discriminate.
Qed.

Lemma key_trans x y z :
  cmp_to_key compare x y = true -> cmp_to_key compare y z = true ->
  cmp_to_key compare x z = true.
Proof.
  intros Hxy Hyz. apply key_true in Hxy, Hyz. apply key_true.
  destruct Hxy as [Hy Hx], Hyz as [Hz Hy'].
  split; [exact Hz|].
  destruct Hx as [Hx|Hx]; [left; exact Hx|].
  destruct Hy' as [Hy'|Hy']; [congruence|].
  right. exact (ltb_trans x y z Hx Hy').
Qed.

(** C3: in every list of filenames sorted by the filename ordering, every
    filename whose root is [index] stands before every filename whose root
    is different; [sort_files] returns such a list, holding the names of the
    listing. *)
Theorem C3_index_files_sort_first :
  (forall (l : list string) (i j : nat) (x y : string),
      ordered (cmp_to_key compare) l ->
      nth_error l i = Some x ->
      nth_error l j = Some y ->
      is_index x = true ->
      is_index y = false ->
      (i < j)%nat)
  /\ (forall filenames : list string,
         Permutation (sort_files filenames) filenames
         /\ ordered (cmp_to_key compare) (sort_files filenames)).
Proof.
  split.
  - intros l i j x y Hl Hi Hj Hx Hy.
    destruct (Nat.lt_total i j) as [Hlt|[Heq|Hgt]]; [exact Hlt| |].
    + subst j. rewrite Hi in Hj. injection Hj as ->. congruence.
    + pose proof (ordered_nth _ l Hl j i y x Hgt Hj Hi) as Hkey.
      rewrite key_index_l in Hkey by assumption. discriminate.
  - intros filenames. split; [apply sorted_Permutation|].
    apply sorted_ordered; [exact key_asym|exact key_trans].
Qed.

Lemma C3_witness :
  sort_files ["b.md"; "index.md"; "a.md"; "index.html"]
    = ["index.md"; "index.html"; "a.md"; "b.md"]
  /\ (1 < 2)%nat.
Proof.
  split; [reflexivity|].
  destruct C3_index_files_sort_first as [Hfirst Hsort].
  apply (Hfirst (sort_files ["b.md"; "index.md"; "a.md"; "index.html"])
           1%nat 2%nat "index.html" "a.md").
  - apply Hsort.
  - reflexivity.
  - reflexivity.
  - reflexivity.
  - reflexivity.
Defined.

(** C4, as stated, fails: when [y] is an index file the comparator
    answers [1]. *)
Lemma C4_counterexample :
  "a.md" <> "index.md"
  /\ fst (os_path.splitext "index.md") = "index"
  /\ compare "a.md" "index.md" = 1
  /\ compare "a.md" "index.md" <> -1.
Proof. repeat split; discriminate. Qed.

(** C4 (amended): for two different filenames [x] and [y] such that the
    root of [y] is [index], the comparator returns [1]: [x] is ordered
    after [y], and the sort key of [x] is not below that of [y]. *)
Theorem C4_compare_index_right :
  forall (x y : string),
    x <> y ->
    fst (os_path.splitext y) = "index" ->
    compare x y = 1 /\ cmp_to_key compare x y = false.
Proof.
  intros x y Hne Hy. unfold cmp_to_key, compare.
  destruct (String.eqb_spec x y) as [|_]; [contradiction|].
  rewrite Hy. simpl. split; reflexivity.
Qed.

Lemma C4_witness :
  compare "a.md" "index.md" = 1
  /\ cmp_to_key compare "a.md" "index.md" = false.
Proof.
  apply C4_compare_index_right; [discriminate | reflexivity].
Defined.

(** ** Path filtering *)

Lemma matches_star name : fnmatch.matches [fnmatch.Star] name = true.
Proof.
  induction name as [|a name IH]; [reflexivity|].
  simpl in *. exact IH.
Qed.

Lemma matches_literal s : forall name,
  fnmatch.matches (map fnmatch.Lit (list_ascii_of_string s)) name
  = String.eqb name s.
Proof.
  induction s as [|c s IH]; intros name; simpl.
  - reflexivity.
  - destruct name as [|a name]; [reflexivity|].
    rewrite IH. reflexivity.
Qed.

Lemma fnmatch_dot_star name :
  fnmatch.fnmatch name ".*" = str.startswith name ".".
Proof.
  destruct name as [|a name]; [reflexivity|].
  change (fnmatch.fnmatch (String a name) ".*")
    with (Ascii.eqb a "." && fnmatch.matches [fnmatch.Star] name).
  rewrite matches_star. reflexivity.
Qed.

Lemma fnmatch_templates name :
  fnmatch.fnmatch name "templates" = String.eqb name "templates".
Proof. apply (matches_literal "templates"). Qed.

(** Under the default patterns an entry is excluded exactly when its
    basename starts with a dot or its path from the source root is
    [templates]; whether it is a directory plays no part. *)
Lemma _filter_paths_default basename path is_dir :
  _filter_paths basename path is_dir exclude
  = str.startswith basename "." || String.eqb path "templates".
Proof.
  unfold exclude, _filter_paths.
  change (str.endswith ".*" "/") with false.
  change (str.endswith "/templates" "/") with false.
  change (str.startswith ".*" "/") with false.
  change (str.startswith "/templates" "/") with true.
  change (str.strip "/" ".*") with ".*".
  change (str.strip "/" "/templates") with "templates".
  cbv beta iota zeta. rewrite fnmatch_dot_star, fnmatch_templates. simpl.
  destruct (str.startswith basename "."), (String.eqb path "templates");
    reflexivity.
Qed.

Lemma basename_templates_md path :
  os_path.basename path = "templates.md" -> path <> "templates".
Proof. intros H ->. discriminate H. Qed.

(** C7: under the default patterns every entry whose basename starts with
    a dot is excluded, the directory [templates] at the source root is
    excluded, and an entry named [templates.md] is not. *)
Theorem C7_default_exclusions :
  (forall (basename path : string) (is_dir : bool),
      str.startswith basename "." = true ->
      _filter_paths basename path is_dir exclude = true)
  /\ _filter_paths "templates"
       (os_path.normpath (os_path.join (relpath []) "templates"))
       true exclude = true
  /\ (forall (path : string) (is_dir : bool),
         os_path.basename path = "templates.md" ->
         _filter_paths "templates.md" path is_dir exclude = false)
  /\ _filter_paths "templates.md"
       (os_path.normpath (os_path.join (relpath []) "templates.md"))
       false exclude = false.
Proof.
  split; [|split; [|split]].
  - intros basename path is_dir Hdot.
    rewrite _filter_paths_default, Hdot. reflexivity.
  - reflexivity.
  - intros path is_dir Hbase. rewrite _filter_paths_default.
    apply basename_templates_md, String.eqb_neq in Hbase.
    rewrite Hbase. reflexivity.
  - reflexivity.
Qed.

Lemma C7_witness :
  _filter_paths ".git" ".git" true exclude = true
  /\ _filter_paths ".hidden.md" "guide/.hidden.md" false exclude = true
  /\ _filter_paths "templates.md" "guide/templates.md" false exclude = false.
Proof.
  destruct C7_default_exclusions as (Hdot & _ & Hmd & _).
  split; [|split].
  - apply Hdot. reflexivity.
  - apply Hdot. reflexivity.
  - apply Hmd. reflexivity.
Defined.

(** ** Discovery *)

Lemma tree_induction (P : tree -> Prop) :
  (forall dirs filenames,
      Forall (fun d => P (snd d)) dirs -> P (Dir dirs filenames)) ->
  forall t, P t.
Proof.
  intros H. fix IH 1. intros [dirs filenames]. apply H.
  induction dirs as [|d dirs IHdirs]; constructor; [apply IH | exact IHdirs].
Qed.

Lemma walk_files_In exts from_dir relative_dir filenames f :
  In f (walk_files exts from_dir relative_dir filenames) ->
  exists filename,
    In filename filenames
    /\ let path := os_path.normpath (os_path.join relative_dir filename) in
       _filter_paths filename path false exclude = false
       /\ f = File_init exts from_dir path (Some filename).
Proof.
  unfold walk_files. rewrite in_flat_map. intros (filename & Hin & Hf).
  exists filename. split.
  - eapply Permutation_in; [apply sorted_Permutation | exact Hin].
  - destruct (_filter_paths filename _ false exclude); simpl in Hf.
    + contradiction.
    + destruct Hf as [<-|[]]. split; reflexivity.
Qed.

Lemma walk_Dir exts from_dir names dirs filenames :
  walk exts from_dir names (Dir dirs filenames)
  = walk_files exts from_dir (relpath names) filenames
    ++ flat_map snd
         (sorted (fun d1 d2 => String.ltb (fst d1) (fst d2))
            (filter
               (fun d =>
                  negb (_filter_paths (fst d)
                          (os_path.normpath
                             (os_path.join (relpath names) (fst d)))
                          true exclude))
               (map (fun d => (fst d, walk exts from_dir (names ++ [fst d])
                                        (snd d)))
                    dirs))).
Proof. reflexivity. Qed.

(** Every discovered file is built from a normalized path that passed the
    filter. *)
Lemma walk_filtered exts from_dir t : forall names f,
  In f (walk exts from_dir names t) ->
  exists relative_dir filename,
    f = File_init exts from_dir
          (os_path.normpath (os_path.join relative_dir filename))
          (Some filename)
    /\ _filter_paths filename (input_path f) false exclude = false.
Proof.
  induction t as [dirs filenames IH] using tree_induction.
  intros names f. rewrite walk_Dir, in_app_iff. intros [Hf|Hf].
  - apply walk_files_In in Hf. destruct Hf as (filename & _ & Hkeep & ->).
    exists (relpath names), filename. split; [reflexivity|].
    destruct (File_init_fields exts from_dir
                (os_path.normpath (os_path.join (relpath names) filename))
                (Some filename)) as (_ & _ & -> & _).
    exact Hkeep.
  - rewrite in_flat_map in Hf. destruct Hf as (d & Hd & Hf).
    eapply Permutation_in in Hd; [|apply sorted_Permutation].
    apply filter_In in Hd. destruct Hd as [Hd _].
    apply in_map_iff in Hd. destruct Hd as (d0 & <- & Hd0).
    rewrite Forall_forall in IH. exact (IH d0 Hd0 _ f Hf).
Qed.

(** C10: under the default patterns a regular file named [templates] at
    the source root is excluded too: the pattern [/templates] does not end
    with a slash, so it is not restricted to directories, and no discovered
    file has the input path [templates]. *)
Theorem C10_templates_file_excluded :
  str.endswith "/templates" "/" = false
  /\ _filter_paths "templates"
       (os_path.normpath (os_path.join (relpath []) "templates"))
       false exclude = true
  /\ forall (exts : list string) (from_dir : string) (t : tree) (f : File),
       In f (_files (get_files exts from_dir t)) ->
       input_path f <> "templates".
Proof.
  split; [reflexivity|]. split; [reflexivity|].
  intros exts from_dir t f Hf Hpath.
  apply walk_filtered in Hf. destruct Hf as (rel & filename & _ & Hkeep).
  rewrite _filter_paths_default, Hpath in Hkeep.
  rewrite orb_true_r in Hkeep. discriminate.
Qed.

Lemma C10_witness :
  let t := Dir [("guide", Dir [] ["templates"])]
               ["templates"; "index.md"; "templates.md"] in
  map input_path (_files (get_files [".md"] "docs" t))
    = ["index.md"; "templates.md"; "guide/templates"]
  /\ input_path (File_init [".md"] "docs" "index.md" (Some "index.md"))
     <> "templates".
Proof.
  intro t. split; [reflexivity|].
  apply (proj2 (proj2 C10_templates_file_excluded) [".md"] "docs" t).
  simpl. left. reflexivity.
Defined.

(** C8: the output path of a file that is not a documentation page is the
    input path itself: for every input path in normal form, which is how the
    data model has input paths, and for every file that [get_files]
    discovers, whose paths it builds with [normpath]; [img/logo.png] maps
    to [img/logo.png]. The output path is the normalized input path in
    general. *)
Theorem C8_static_file_output_path :
  forall (exts : list string) (from_dir : string),
    (forall path filename,
        let f := File_init exts from_dir path filename in
        is_documentation_page exts f = false ->
        output_path f = os_path.normpath path
        /\ (os_path.normpath path = path -> output_path f = input_path f))
    /\ (forall t f,
           In f (_files (get_files exts from_dir t)) ->
           is_documentation_page exts f = false ->
           output_path f = input_path f)
    /\ (str.mem ".png" exts = false ->
        output_path (File_init exts from_dir "img/logo.png" None)
        = "img/logo.png").
Proof.
  intros exts from_dir.
  assert (Hgen : forall path filename,
             let f := File_init exts from_dir path filename in
             is_documentation_page exts f = false ->
             output_path f = os_path.normpath path
             /\ (os_path.normpath path = path ->
                 output_path f = input_path f)).
  { intros path filename f Hdoc.
    destruct (File_init_fields exts from_dir path filename)
      as (_ & _ & Hin & _).
    fold f in Hin.
    assert (Hout : output_path f = os_path.normpath path).
    { unfold f at 1. rewrite File_init_output_path. fold f.
      unfold get_output_path. rewrite Hdoc, Hin. reflexivity. }
    split; [exact Hout|]. intros Hnorm. rewrite Hout, Hin. exact Hnorm. }
  split; [exact Hgen|]. split.
  - intros t f Hf Hdoc. apply walk_filtered in Hf.
    destruct Hf as (rel & filename & -> & _).
    apply Hgen; [exact Hdoc|]. apply normpath_idempotent.
  - intros Hpng.
    destruct (Hgen "img/logo.png" None) as [Hout _]; [|exact Hout].
    unfold is_documentation_page.
    change (extension (File_init exts from_dir "img/logo.png" None))
      with ".png".
    exact Hpng.
Qed.

Lemma C8_witness :
  let exts := [".markdown"; ".mdown"; ".mkdn"; ".mkd"; ".md"] in
  output_path (File_init exts "docs" "img/logo.png" None) = "img/logo.png"
  /\ output_path (File_init exts "docs" "./img//logo.png" None)
     = "img/logo.png"
  /\ (let f := File_init exts "docs" "css/site.css" (Some "site.css") in
      output_path f = input_path f).
Proof.
  intros exts.
  destruct (C8_static_file_output_path exts "docs") as (Hgen & Hwalk & Hpng).
  split; [apply Hpng; reflexivity|]. split.
  - destruct (Hgen "./img//logo.png" None) as [Hout _]; [reflexivity|].
    rewrite Hout. reflexivity.
  - apply (Hwalk (Dir [("css", Dir [] ["site.css"])] ["index.md"])).
    + simpl. right. left. reflexivity.
    + reflexivity.
Defined.

(** ** The plugin collection *)

Lemma mem_In x l : str.mem x l = true <-> In x l.
Proof.
  unfold str.mem. rewrite existsb_exists. split.
  - intros (y & Hy & Heq). apply String.eqb_eq in Heq. subst. exact Hy.
  - intros Hx. exists x. split; [exact Hx | apply String.eqb_refl].
Qed.

Lemma mem_not_In x l : str.mem x l = false <-> ~ In x l.
Proof.
  rewrite <- mem_In. destruct (str.mem x l); split; intros H; congruence.
Qed.

Section Registry.

Context {A C : Type}.
Implicit Types (self : plugins.PluginCollection A C)
               (instance : plugins.Plugin A C).

Lemma set_present self name instance :
  In name (map fst (plugins.items self)) ->
  map fst (plugins.items (plugins.set name instance self))
  = map fst (plugins.items self).
Proof.
  unfold plugins.items.
  induction self as [|[n p] self IH]; simpl; [contradiction|].
  intros Hin. destruct (String.eqb_spec n name) as [->|Hne]; simpl.
  - reflexivity.
  - f_equal. apply IH. destruct Hin as [Heq|Hin]; [contradiction|exact Hin].
Qed.

Lemma set_absent self name instance :
  ~ In name (map fst (plugins.items self)) ->
  plugins.items (plugins.set name instance self)
  = plugins.items self ++ [(name, instance)].
Proof.
  unfold plugins.items.
  induction self as [|[n p] self IH]; simpl; [reflexivity|].
  intros Hin. destruct (String.eqb_spec n name) as [->|Hne].
  - exfalso. apply Hin. left. reflexivity.
  - f_equal. apply IH. intros H. apply Hin. right. exact H.
Qed.

Lemma get_set_same self name instance :
  plugins.get name (plugins.set name instance self) = inr instance.
Proof.
  induction self as [|[n p] self IH]; simpl.
  - rewrite String.eqb_refl. reflexivity.
  - destruct (String.eqb_spec n name) as [->|Hne]; simpl.
    + rewrite String.eqb_refl. reflexivity.
    + apply String.eqb_neq in Hne. rewrite Hne. exact IH.
Qed.

Lemma get_set_other self name instance other :
  other <> name ->
  plugins.get other (plugins.set name instance self)
  = plugins.get other self.
Proof.
  intros Hother.
  induction self as [|[n p] self IH]; simpl.
  - apply not_eq_sym, String.eqb_neq in Hother. rewrite Hother.
    reflexivity.
  - destruct (String.eqb_spec n name) as [->|Hne]; simpl.
    + apply not_eq_sym, String.eqb_neq in Hother. rewrite Hother.
      reflexivity.
    + destruct (String.eqb n other); [reflexivity|exact IH].
Qed.

Lemma register_all_fresh l : forall self,
  List.NoDup (map fst (plugins.items self) ++ map fst l) ->
  plugins.items (register_all l self) = plugins.items self ++ l.
Proof.
  induction l as [|[n p] l IH]; intros self Hnd; simpl.
  - rewrite app_nil_r. reflexivity.
  - assert (Hfresh : ~ In n (map fst (plugins.items self))).
    { intros Hin. apply NoDup_remove_2 in Hnd. apply Hnd.
      apply in_or_app. left. exact Hin. }
    rewrite IH.
    + rewrite (set_absent self n p Hfresh), <- app_assoc. reflexivity.
    + rewrite (set_absent self n p Hfresh), map_app. simpl.
      rewrite <- app_assoc. exact Hnd.
Qed.

End Registry.

(** C9: setting a name that the registry already holds overwrites the
    stored instance and leaves the sequence of names yielded by [items()],
    hence the position of that name and every other entry, as it was; a name
    not yet present is appended, so that names registered one after the other
    are yielded in insertion order. *)
Theorem C9_registry_set_is_order_stable :
  forall (A C : Type) (self : plugins.PluginCollection A C)
         (name : string) (instance : plugins.Plugin A C),
    (In name (map fst (plugins.items self)) ->
     map fst (plugins.items (plugins.set name instance self))
       = map fst (plugins.items self)
     /\ plugins.get name (plugins.set name instance self) = inr instance
     /\ forall other, other <> name ->
          plugins.get other (plugins.set name instance self)
          = plugins.get other self)
    /\ (~ In name (map fst (plugins.items self)) ->
        plugins.items (plugins.set name instance self)
        = plugins.items self ++ [(name, instance)])
    /\ (forall l : list (string * plugins.Plugin A C),
           List.NoDup (map fst l) ->
           plugins.items (register_all l plugins.empty) = l).
Proof.
  intros A C self name instance. split; [|split].
  - intros Hin. split; [apply set_present; exact Hin|].
    split; [apply get_set_same|].
    intros other Hother. apply get_set_other. exact Hother.
  - apply set_absent.
  - intros l Hnd. apply (register_all_fresh l plugins.empty). exact Hnd.
Qed.

Lemma C9_witness :
  let plugin1 := plugins.new plugins.DummyPlugin in
  let plugin2 :=
    fst (plugins.load_config (plugins.new plugins.DummyPlugin)
           {[ "foo" := plugins.VStr "second" ]}) in
  let collection :=
    plugins.set "bar" plugin2 (plugins.set "foo" plugin1 plugins.empty) in
  plugins.items collection = [("foo", plugin1); ("bar", plugin2)]
  /\ map fst (plugins.items (plugins.set "foo" plugin2 collection))
     = ["foo"; "bar"]
  /\ plugins.get "foo" (plugins.set "foo" plugin2 collection) = inr plugin2
  /\ plugins.items (plugins.set "baz" plugin1 collection)
     = [("foo", plugin1); ("bar", plugin2); ("baz", plugin1)].
Proof.
  intros plugin1 plugin2 collection.
  split; [reflexivity|].
  destruct (C9_registry_set_is_order_stable string unit collection "foo" plugin2)
    as (Hset & _ & _).
  destruct Hset as (Hkeys & Hget & _); [simpl; auto|].
  destruct (C9_registry_set_is_order_stable string unit collection "baz" plugin1)
    as (_ & Hnew & _).
  split; [exact Hkeys|]. split; [exact Hget|].
  apply Hnew. simpl. intros [H|[H|[]]]; discriminate.
Defined.

(** ** Hook dispatch *)

Section Dispatch.

Context {A C : Type}.
Variables (hook : string) (context : C).
Implicit Types (st : A * list string).

Lemma run_loop_app l1 l2 st :
  plugins.run_loop hook context (l1 ++ l2) st
  = plugins.bind (plugins.run_loop hook context l1 st)
                 (plugins.run_loop hook context l2).
Proof.
  revert st. induction l1 as [|[n p] l1 IH]; intros st; simpl.
  - reflexivity.
  - destruct (plugins.on (plugins.class p) hook) as [handler|]; simpl.
    + destruct (handler _ _ _) as [[r|]|what]; simpl;
        [apply IH | apply IH | reflexivity].
    + apply IH.
Qed.

Lemma run_loop_undefined l st :
  (forall name instance,
      In (name, instance) l ->
      plugins.on (plugins.class instance) hook = None) ->
  plugins.run_loop hook context l st = inr st.
Proof.
  revert st. induction l as [|[n p] l IH]; intros st Hnone; simpl.
  - reflexivity.
  - rewrite (Hnone n p) by (left; reflexivity). simpl.
    apply IH. intros name instance Hin. apply (Hnone name instance).
    right. exact Hin.
Qed.

Lemma run_loop_trace l : forall st st',
  plugins.run_loop hook context l st = inr st' ->
  snd st' = snd st ++ map fst (filter (defines hook) l).
Proof.
  induction l as [|[n p] l IH]; intros st st'; simpl.
  - intros [= <-]. rewrite app_nil_r. reflexivity.
  - unfold defines at 1. simpl.
    destruct (plugins.on (plugins.class p) hook) as [handler|]; simpl.
    + destruct (handler _ _ _) as [[r|]|what]; simpl; intros Hrun;
        [apply IH in Hrun | apply IH in Hrun | discriminate];
        rewrite Hrun; simpl; rewrite <- app_assoc; reflexivity.
    + apply IH.
Qed.

End Dispatch.

(** C6: dispatching a recognized hook for which no registered plugin
    defines a handler returns the payload unchanged (and calls nothing);
    dispatching a hook name outside the recognized set fails with
    [UnknownHookError] and returns no payload. *)
Theorem C6_undefined_and_unknown_hooks :
  forall (A C : Type) (EVENTS : list string)
         (self : plugins.PluginCollection A C)
         (hook : string) (payload : A) (context : C),
    (In hook EVENTS ->
     (forall name instance,
         In (name, instance) (plugins.items self) ->
         plugins.on (plugins.class instance) hook = None) ->
     plugins.run_event EVENTS self hook payload context = inr payload
     /\ plugins.run_traced EVENTS self hook payload context
        = inr (payload, []))
    /\ (~ In hook EVENTS ->
        plugins.run_event EVENTS self hook payload context
        = inl (plugins.UnknownHookError hook)).
Proof.
  intros A C EVENTS self hook payload context.
  unfold plugins.run_event, plugins.run_traced. split.
  - intros Hin Hnone. apply mem_In in Hin. rewrite Hin.
    rewrite run_loop_undefined by exact Hnone. split; reflexivity.
  - intros Hout. apply mem_not_In in Hout. rewrite Hout. reflexivity.
Qed.

Lemma C6_witness :
  let collection := plugins.set "foo" (dummy "new") plugins.empty in
  plugins.run_event ["pre_page"; "post_nav"; "serve"] collection "serve"
    "page content" tt = inr "page content"
  /\ plugins.run_event ["pre_page"; "post_nav"; "serve"]
       (@plugins.empty string unit) "pre_page" "page content" tt
     = inr "page content"
  /\ plugins.run_event ["pre_page"; "post_nav"; "serve"] collection "unknown"
       "page content" tt = inl (plugins.UnknownHookError "unknown").
Proof.
  intros collection. split; [|split].
  - apply (C6_undefined_and_unknown_hooks string unit
             ["pre_page"; "post_nav"; "serve"] collection "serve").
    + simpl. auto.
    + intros name instance [[= <- <-]|[]]. reflexivity.
  - apply (C6_undefined_and_unknown_hooks string unit
             ["pre_page"; "post_nav"; "serve"] plugins.empty "pre_page").
    + simpl. auto.
    + intros name instance [].
  - apply (C6_undefined_and_unknown_hooks string unit
             ["pre_page"; "post_nav"; "serve"] collection "unknown").
    simpl. intros [H|[H|[H|[]]]]; discriminate.
Defined.

(** C2: a recognized hook is run on the plugins in the order of
    registration: the handlers called are those of the plugins that define
    one, in the order of [items()]; a handler that returns a result hands
    that result to the plugins behind it, a handler that returns [None]
    hands on the payload it received. With two [DummyPlugin]s registered
    that prepend [A] and then [B], running [pre_page] on [X] returns
    [B A X]. *)
Theorem C2_hooks_run_in_registration_order :
  (forall (A C : Type) (EVENTS : list string)
          (self : plugins.PluginCollection A C)
          (hook : string) (payload : A) (context : C),
      In hook EVENTS ->
      (forall r trace,
          plugins.run_traced EVENTS self hook payload context
            = inr (r, trace) ->
          trace = map fst (filter (defines hook) (plugins.items self))
          /\ plugins.run_event EVENTS self hook payload context = inr r)
      /\ (forall before name instance after handler st,
             plugins.items self = before ++ (name, instance) :: after ->
             plugins.on (plugins.class instance) hook = Some handler ->
             plugins.run_loop hook context before (payload, []) = inr st ->
             (forall r,
                 handler (plugins.config instance) (fst st) context
                   = plugins.Return (Some r) ->
                 plugins.run_traced EVENTS self hook payload context
                 = plugins.run_loop hook context after (r, snd st ++ [name]))
             /\ (handler (plugins.config instance) (fst st) context
                   = plugins.Return None ->
                 plugins.run_traced EVENTS self hook payload context
                 = plugins.run_loop hook context after
                     (fst st, snd st ++ [name]))))
  /\ (forall EVENTS : list string,
         In "pre_page" EVENTS ->
         plugins.run_event EVENTS
           (plugins.set "second" (dummy "B")
              (plugins.set "first" (dummy "A") plugins.empty))
           "pre_page" "X" tt
         = inr "B A X").
Proof.
  split.
  - intros A C EVENTS self hook payload context Hin.
    apply mem_In in Hin. unfold plugins.run_event, plugins.run_traced.
    rewrite Hin. split.
    + intros r trace Hrun. rewrite Hrun. split; [|reflexivity].
      apply run_loop_trace in Hrun. exact Hrun.
    + intros before name instance after handler st -> Hon Hbefore.
      rewrite run_loop_app, Hbefore. simpl. rewrite Hon.
      split; [intros r Hret | intros Hret]; rewrite Hret; reflexivity.
  - intros EVENTS Hin. apply mem_In in Hin.
    unfold plugins.run_event, plugins.run_traced. rewrite Hin.
    vm_compute. reflexivity.
Qed.

Lemma C2_witness :
  plugins.run_event ["pre_page"; "post_nav"]
    (plugins.set "second" (dummy "B")
       (plugins.set "first" (dummy "A") plugins.empty))
    "pre_page" "X" tt
  = inr "B A X"
  /\ plugins.run_traced ["pre_page"; "post_nav"]
       (plugins.set "bar" (dummy "second")
          (plugins.set "foo" (dummy "new") plugins.empty))
       "post_nav" "nav item" tt
     = inr ("nav item", ["foo"; "bar"]).
Proof.
  destruct C2_hooks_run_in_registration_order as [Hgen Hex]. split.
  - apply Hex. simpl. auto.
  - set (collection := plugins.set "bar" (dummy "second")
                         (plugins.set "foo" (dummy "new") plugins.empty)).
    destruct (Hgen string unit ["pre_page"; "post_nav"] collection
                "post_nav" "nav item" tt) as [_ Hstep]; [simpl; auto|].
    destruct (Hstep [("foo", dummy "new")] "bar" (dummy "second") []
                (fun _ _ _ => plugins.Return None) ("nav item", ["foo"]))
      as [_ Hnone]; [reflexivity | reflexivity | reflexivity |].
    rewrite Hnone; reflexivity.
Defined.

(** ** Plugin configuration *)

Section LoadConfig.

Import plugins.

Variables (options : gmap string value) (k : string).

Lemma defaults_acc_other scheme : forall c : gmap string value,
  ~ In k (map key scheme) ->
  fold_left (fun c e => <[key e := default e]> c) scheme c !! k = c !! k.
Proof.
  induction scheme as [|e scheme IH]; intros c Hk; simpl; [reflexivity|].
  rewrite IH by (intros H; apply Hk; right; exact H).
  apply lookup_insert_ne. intros Heq. apply Hk. left. exact Heq.
Qed.

Lemma validate_scheme_lookup scheme : forall c,
  (forall e, In e scheme -> key e = k ->
             exists raw reason,
               options !! k = Some raw /\ validator e raw = inl reason) ->
  fst (validate_scheme scheme options c) !! k = c !! k.
Proof.
  induction scheme as [|e scheme IH]; intros c Hfail; simpl; [reflexivity|].
  assert (Htail : forall e', In e' scheme -> key e' = k ->
                    exists raw reason,
                      options !! k = Some raw
                      /\ validator e' raw = inl reason)
    by (intros e' He'; apply Hfail; right; exact He').
  destruct (String.eqb_spec (key e) k) as [Heq|Hne].
  - destruct (Hfail e (or_introl eq_refl) Heq) as (raw & reason & Hraw & Hval).
    rewrite Heq, Hraw, Hval.
    specialize (IH c Htail).
    destruct (validate_scheme scheme options c) as [c' errors]. exact IH.
  - destruct (options !! key e) as [raw|].
    + destruct (validator e raw) as [reason|v].
      * specialize (IH c Htail).
        destruct (validate_scheme scheme options c) as [c' errors].
        exact IH.
      * rewrite IH by exact Htail. apply lookup_insert_ne. exact Hne.
    + rewrite IH by exact Htail. apply lookup_insert_ne. exact Hne.
Qed.


Lemma filter_nil_iff {X} (f : X -> bool) l :
  (forall x, In x l -> f x = false) -> filter f l = [].
Proof.
  induction l as [|x l IH]; intros H; simpl; [reflexivity|].
  rewrite (H x) by (left; reflexivity).
  apply IH. intros y Hy. apply H. right. exact Hy.
Qed.







End LoadConfig.

Lemma load_config_unfold {A C} (self : plugins.Plugin A C) options :
  let scheme := plugins.config_scheme (plugins.class self) in
  let validated :=
    plugins.validate_scheme scheme options (plugins.defaults scheme) in
  plugins.load_config self options
  = ({| plugins.class := plugins.class self;
        plugins.config := fst validated |},
     (snd validated, plugins.unknown_keys scheme options)).
Proof.
  intros scheme validated. unfold plugins.load_config.
  fold scheme. fold validated. destruct validated. reflexivity.
Qed.




(** * Further properties of [mkdocs/structure/files.py] *)

(** ** [sort_files] *)

Lemma ordered_unique {A} (lt : A -> A -> bool) :
  (forall x y, lt x y = false -> lt y x = false -> x = y) ->
  forall l1 l2,
    Permutation l1 l2 -> ordered lt l1 -> ordered lt l2 -> l1 = l2.
Proof.
  intros Htotal. unfold ordered.
  induction l1 as [|a l1 IH]; intros l2 Hperm H1 H2.
  - apply Permutation_nil in Hperm. subst. reflexivity.
  - destruct l2 as [|b l2].
    + apply Permutation_sym, Permutation_nil in Hperm. discriminate.
    + apply StronglySorted_inv in H1, H2.
      destruct H1 as [H1 Ha], H2 as [H2 Hb].
      rewrite Forall_forall in Ha, Hb.
      assert (Hab : a = b).
      { assert (Hin1 : In a (b :: l2))
          by (eapply Permutation_in; [exact Hperm | left; reflexivity]).
        assert (Hin2 : In b (a :: l1))
          by (eapply Permutation_in;
              [apply Permutation_sym; exact Hperm | left; reflexivity]).
        destruct Hin1 as [Heq|Hin1]; [congruence|].
        destruct Hin2 as [Heq|Hin2]; [congruence|].
        apply Htotal; [apply Hb; exact Hin1 | apply Ha; exact Hin2]. }
      subst b. f_equal. apply IH; [|assumption|assumption].
      eapply Permutation_cons_inv. exact Hperm.
Qed.

Lemma ltb_total x y :
  String.ltb x y = false -> String.ltb y x = false -> x = y.
Proof.
  unfold String.ltb. rewrite (String.compare_antisym y x).
  destruct (String.compare x y) eqn:E; simpl; try discriminate.
  intros _ _. apply String.compare_eq_iff. exact E.
Qed.

Lemma sorted_ltb_Permutation l1 l2 :
  Permutation l1 l2 -> sorted String.ltb l1 = sorted String.ltb l2.
Proof.
  intros Hperm. apply (ordered_unique String.ltb ltb_total).
  - rewrite !sorted_Permutation. exact Hperm.
  - apply sorted_ordered; [exact ltb_asym | exact ltb_trans].
  - apply sorted_ordered; [exact ltb_asym | exact ltb_trans].
Qed.

Lemma filter_Permutation {A} (f : A -> bool) l1 l2 :
  Permutation l1 l2 -> Permutation (filter f l1) (filter f l2).
Proof.
  induction 1 as [|x l1 l2 H IH|x y l|l1 l2 l3 H1 IH1 H2 IH2]; simpl.
  - constructor.
  - destruct (f x); [constructor|]; exact IH.
  - destruct (f x), (f y); try reflexivity. apply perm_swap.
  - etransitivity; eassumption.
Qed.

Lemma sort_files_Permutation l1 l2 :
  Permutation l1 l2 ->
  filter is_index l1 = filter is_index l2 ->
  sort_files l1 = sort_files l2.
Proof.
  intros Hperm Hindex. rewrite !sort_files_partition, Hindex.
  f_equal. apply sorted_ltb_Permutation, filter_Permutation, Hperm.
Qed.

(** X1: [sort_files] returns the index files in the order of the listing,
    followed by the other names in lexicographic order. *)
Theorem sort_files_index_then_sorted :
  forall filenames : list string,
    let others := filter (fun x => negb (is_index x)) filenames in
    sort_files filenames
    = filter is_index filenames ++ sorted String.ltb others
    /\ Permutation (sorted String.ltb others) others
    /\ ordered String.ltb (sorted String.ltb others).
Proof.
  intros filenames others. split; [apply sort_files_partition|].
  split; [apply sorted_Permutation|].
  apply sorted_ordered; [exact ltb_asym | exact ltb_trans].
Qed.

(** X2: [sort_files] depends on the order of the listing only through the order
    in which the listing gives the index files. *)
Theorem sort_files_listing_order :
  forall l1 l2 : list string,
    Permutation l1 l2 ->
    filter is_index l1 = filter is_index l2 ->
    sort_files l1 = sort_files l2.
Proof.
  intros l1 l2 Hperm Hindex.
  rewrite (sort_files_Permutation l1 l2 Hperm Hindex). reflexivity.
Qed.

Lemma sort_files_listing_order_witness :
  sort_files ["b.md"; "index.md"; "a.md"; "c.md"]
  = sort_files ["c.md"; "a.md"; "index.md"; "b.md"]
  /\ sort_files ["index.md"; "index.html"]
     <> sort_files ["index.html"; "index.md"].
Proof.
  split; [|discriminate].
  apply sort_files_listing_order; [|reflexivity].
  apply Permutation_sym.
  apply (perm_trans (l' := ["a.md"; "c.md"; "index.md"; "b.md"]));
    [apply perm_swap|].
  apply (perm_trans (l' := ["a.md"; "index.md"; "c.md"; "b.md"]));
    [apply perm_skip, perm_swap|].
  apply (perm_trans (l' := ["index.md"; "a.md"; "c.md"; "b.md"]));
    [apply perm_swap|].
  apply (perm_trans (l' := ["index.md"; "a.md"; "b.md"; "c.md"]));
    [do 2 apply perm_skip; apply perm_swap|].
  apply (perm_trans (l' := ["index.md"; "b.md"; "a.md"; "c.md"]));
    [apply perm_skip, perm_swap|].
  apply perm_swap.
Defined.

Lemma filter_filter_neg {A} (f : A -> bool) l :
  filter f (filter (fun x => negb (f x)) l) = [].
Proof.
  induction l as [|x l IH]; simpl; [reflexivity|].
  destruct (f x) eqn:E; simpl; [exact IH|]. rewrite E. exact IH.
Qed.

Lemma filter_idem {A} (f : A -> bool) l : filter f (filter f l) = filter f l.
Proof.
  induction l as [|x l IH]; simpl; [reflexivity|].
  destruct (f x) eqn:E; simpl; [rewrite E, IH; reflexivity | exact IH].
Qed.

Lemma filter_Forall_id {A} (f : A -> bool) l :
  Forall (fun x => f x = true) l -> filter f l = l.
Proof.
  induction 1 as [|x l Hx Hl IH]; simpl; [reflexivity|].
  rewrite Hx, IH. reflexivity.
Qed.

Lemma filter_Forall_nil {A} (f : A -> bool) l :
  Forall (fun x => f x = false) l -> filter f l = [].
Proof.
  induction 1 as [|x l Hx Hl IH]; simpl; [reflexivity|].
  rewrite Hx, IH. reflexivity.
Qed.

(** X3: Sorting a sorted listing changes nothing. *)
Theorem sort_files_idempotent :
  forall filenames : list string,
    sort_files (sort_files filenames) = sort_files filenames.
Proof.
  intros filenames.
  rewrite (sort_files_partition (sort_files filenames)).
  rewrite (sort_files_partition filenames).
  set (I := filter is_index filenames).
  set (N := sorted String.ltb
              (filter (fun x => negb (is_index x)) filenames)).
  assert (HI : Forall (fun e => is_index e = true) I)
    by apply filter_Forall_true.
  assert (HN : Forall (fun e => negb (is_index e) = true) N).
  { apply sorted_acc_Forall; [|constructor].
    apply (filter_Forall_true (fun x => negb (is_index x))). }
  assert (HN' : Forall (fun e => is_index e = false) N).
  { eapply Forall_impl; [|exact HN]. intros a Ha. simpl in Ha.
    destruct (is_index a); [discriminate|reflexivity]. }
  assert (HI' : Forall (fun e => negb (is_index e) = false) I).
  { eapply Forall_impl; [|exact HI]. intros a Ha. simpl in Ha.
    rewrite Ha. reflexivity. }
  rewrite !filter_app.
  rewrite (filter_Forall_id is_index I HI).
  rewrite (filter_Forall_nil is_index N HN').
  rewrite (filter_Forall_nil (fun x => negb (is_index x)) I HI').
  rewrite (filter_Forall_id (fun x => negb (is_index x)) N HN).
  rewrite app_nil_r. simpl. f_equal.
  apply (ordered_unique String.ltb ltb_total).
  - apply sorted_Permutation.
  - apply sorted_ordered; [exact ltb_asym | exact ltb_trans].
  - apply sorted_ordered; [exact ltb_asym | exact ltb_trans].
Qed.

(** X4: The comparator answers [0] only for equal names, and answers with
    opposite signs for [x, y] and [y, x] unless both are index files, for
    which it answers [1] both ways. *)
Theorem compare_signs :
  forall x y : string,
    (compare x y = 0 <-> x = y)
    /\ (x <> y ->
        (is_index x = true /\ is_index y = true ->
         compare x y = 1 /\ compare y x = 1)
        /\ (is_index x = false \/ is_index y = false ->
            compare x y = - compare y x)).
Proof.
  intros x y. unfold compare, is_index. split.
  - destruct (String.eqb_spec x y) as [->|Hne]; [tauto|].
    split; [|contradiction].
    destruct (String.eqb _ "index"); [discriminate|].
    destruct (_ || _); discriminate.
  - intros Hne.
    destruct (String.eqb_spec x y) as [|_]; [contradiction|].
    destruct (String.eqb_spec y x) as [Heq|_]; [congruence|].
    destruct (String.eqb (fst (os_path.splitext x)) "index") eqn:Hx,
             (String.eqb (fst (os_path.splitext y)) "index") eqn:Hy; simpl.
    + split; [intros _; split; reflexivity|].
      intros [H|H]; discriminate.
    + split; [intros [_ H]; discriminate|]. intros _. reflexivity.
    + split; [intros [H _]; discriminate|]. intros _. reflexivity.
    + split; [intros [H _]; discriminate|]. intros _.
      destruct (String.ltb x y) eqn:Hxy.
      * rewrite (ltb_asym x y Hxy). reflexivity.
      * destruct (String.ltb y x) eqn:Hyx; [reflexivity|].
        exfalso. apply Hne. apply ltb_total; assumption.
Qed.

Lemma compare_signs_witness :
  compare "a.md" "b.md" = - compare "b.md" "a.md"
  /\ compare "index.md" "index.html" = 1
  /\ compare "index.html" "index.md" = 1.
Proof.
  destruct (compare_signs "a.md" "b.md") as [_ Hab].
  destruct (Hab ltac:(discriminate)) as [_ Hopp].
  destruct (compare_signs "index.md" "index.html") as [_ Hii].
  destruct (Hii ltac:(discriminate)) as [Hboth _].
  split; [apply Hopp; left; reflexivity|].
  apply Hboth. split; reflexivity.
Defined.

(** ** The [File] class *)

Lemma normpath_nonempty p : os_path.normpath p <> "".
Proof.
  destruct (normpath_shape p) as [->|(k & comps & _ & _ & Hq & ->)];
    [discriminate|exact Hq].
Qed.

(** X5: The paths that [File.__init__] computes are not empty and are in normal
    form: normalizing them again changes nothing. *)
Theorem File_paths_normal :
  forall (exts : list string) (from_dir path : string)
         (filename : option string),
    let f := File_init exts from_dir path filename in
    os_path.normpath (full_input_path f) = full_input_path f
    /\ os_path.normpath (output_path f) = output_path f
    /\ full_input_path f <> ""
    /\ output_path f <> "".
Proof.
  intros exts from_dir path filename f.
  destruct (File_init_fields exts from_dir path filename)
    as (_ & _ & _ & Hfull).
  fold f in Hfull.
  assert (Hout : exists q, output_path f = os_path.normpath q).
  { unfold f. rewrite File_init_output_path. unfold get_output_path.
    destruct (is_documentation_page exts _); eexists; reflexivity. }
  destruct Hout as [q Hout]. rewrite Hfull, Hout.
  split; [apply normpath_idempotent|].
  split; [apply normpath_idempotent|].
  split; apply normpath_nonempty.
Qed.

Lemma take_drop n : forall s, (str.take n s ++ str.drop n s)%string = s.
Proof.
  induction n as [|n IH]; intros [|a s]; try reflexivity.
  change (String a (str.take n s ++ str.drop n s) = String a s).
  f_equal. apply IH.
Qed.

Lemma append_empty_r s : (s ++ "")%string = s.
Proof.
  induction s as [|a s IH]; [reflexivity|].
  change (String a (s ++ "") = String a s). f_equal. exact IH.
Qed.

Lemma splitext_join p :
  (fst (os_path.splitext p) ++ snd (os_path.splitext p))%string = p.
Proof.
  unfold os_path.splitext.
  destruct (_ && _); cbn [fst snd]; [apply take_drop|apply append_empty_r].
Qed.

Lemma lower_char_lowercase a :
  negb ((65 <=? nat_of_ascii (str.lower_char a))%nat
        && (nat_of_ascii (str.lower_char a) <=? 90)%nat) = true.
Proof.
  destruct a as [[] [] [] [] [] [] [] []]; reflexivity.
Qed.

Lemma lower_lowercase s : lowercase (str.lower s) = true.
Proof.
  induction s as [|a s IH]; simpl; [reflexivity|].
  rewrite IH, andb_true_r. apply lower_char_lowercase.
Qed.

Lemma lower_char_keeps a c :
  c = "/"%char \/ c = "."%char ->
  Ascii.eqb (str.lower_char a) c = Ascii.eqb a c.
Proof.
  intros [->| ->]; destruct a as [[] [] [] [] [] [] [] []]; reflexivity.
Qed.

Lemma rfind_of_lower c s :
  c = "/"%char \/ c = "."%char ->
  str.rfind c (str.lower s) = str.rfind c s.
Proof.
  intros Hc. induction s as [|a s IH]; [reflexivity|].
  cbn [str.lower str.rfind]. rewrite IH, (lower_char_keeps a c Hc).
  reflexivity.
Qed.

Lemma get_of_lower s : forall i,
  String.get i (str.lower s) = option_map str.lower_char (String.get i s).
Proof.
  induction s as [|a s IH]; intros i; [reflexivity|].
  destruct i as [|i]; [reflexivity|]. apply IH.
Qed.

Lemma splitext_scan_of_lower p n : forall i,
  os_path.splitext_scan (str.lower p) i n = os_path.splitext_scan p i n.
Proof.
  induction n as [|n IH]; intros i; [reflexivity|].
  cbn [os_path.splitext_scan]. rewrite get_of_lower.
  destruct (String.get i p) as [a|]; [|reflexivity].
  cbn [option_map]. unfold os_path.extsep.
  rewrite (lower_char_keeps a "." (or_intror eq_refl)), IH. reflexivity.
Qed.

Lemma take_of_lower n : forall s,
  str.take n (str.lower s) = str.lower (str.take n s).
Proof.
  induction n as [|n IH]; intros [|a s]; try reflexivity.
  cbn [str.lower str.take]. rewrite IH. reflexivity.
Qed.

Lemma drop_of_lower n : forall s,
  str.drop n (str.lower s) = str.lower (str.drop n s).
Proof.
  induction n as [|n IH]; intros [|a s]; try reflexivity.
  cbn [str.lower str.drop]. apply IH.
Qed.

(** Splitting the lower-cased name gives the lower-cased parts. *)
Lemma splitext_of_lower p :
  os_path.splitext (str.lower p)
  = (str.lower (fst (os_path.splitext p)),
     str.lower (snd (os_path.splitext p))).
Proof.
  unfold os_path.splitext, os_path.sep, os_path.extsep.
  rewrite !rfind_of_lower by auto. rewrite splitext_scan_of_lower.
  destruct (_ && _); cbn [fst snd].
  - rewrite take_of_lower, drop_of_lower. reflexivity.
  - reflexivity.
Qed.

(** X6: for a filename of ASCII characters, [root] and [extension] split
    the filename: the filename is [root] followed by a suffix, and
    [extension] is that suffix in lower case, with no letter [A]..[Z]; the
    classification does not depend on the case of the filename: a file
    whose filename differs only in the case of its letters has the same
    extension and is in the same categories. *)
Theorem File_root_extension :
  forall (exts : list string) (from_dir path : string)
         (filename : option string),
    let f := File_init exts from_dir path filename in
    ascii_only (filename_of path filename) = true ->
    (exists suffix,
        filename_of path filename = (root f ++ suffix)%string
        /\ extension f = str.lower suffix
        /\ lowercase (extension f) = true)
    /\ (forall (from_dir' path' : string) (filename' : option string),
           let f' := File_init exts from_dir' path' filename' in
           ascii_only (filename_of path' filename') = true ->
           str.lower (filename_of path' filename')
             = str.lower (filename_of path filename) ->
           extension f' = extension f
           /\ is_documentation_page exts f' = is_documentation_page exts f
           /\ is_static_page f' = is_static_page f
           /\ is_media_file exts f' = is_media_file exts f
           /\ is_javascript f' = is_javascript f
           /\ is_css f' = is_css f).
Proof.
  intros exts from_dir path filename f _.
  destruct (File_init_fields exts from_dir path filename)
    as (Hroot & Hext & _ & _).
  fold f in Hroot, Hext. split.
  - exists (snd (os_path.splitext (filename_of path filename))).
    rewrite Hroot, Hext. split; [symmetry; apply splitext_join|].
    split; [reflexivity|apply lower_lowercase].
  - intros from_dir' path' filename' f' _ Hsame.
    destruct (File_init_fields exts from_dir' path' filename')
      as (_ & Hext' & _ & _).
    fold f' in Hext'.
    assert (Heq : extension f' = extension f).
    { rewrite Hext, Hext'.
      change (str.lower (snd (os_path.splitext (filename_of path' filename'))))
        with (snd (str.lower (fst (os_path.splitext
                                     (filename_of path' filename'))),
                   str.lower (snd (os_path.splitext
                                     (filename_of path' filename'))))).
      change (str.lower (snd (os_path.splitext (filename_of path filename))))
        with (snd (str.lower (fst (os_path.splitext
                                     (filename_of path filename))),
                   str.lower (snd (os_path.splitext
                                     (filename_of path filename))))).
      rewrite <- !splitext_of_lower, Hsame. reflexivity. }
    unfold is_media_file, is_documentation_page, is_static_page,
      is_javascript, is_css.
    rewrite Heq. repeat split.
Qed.

Lemma File_root_extension_witness :
  let f := File_init [".md"] "docs" "guide/Intro.MD" None in
  let f' := File_init [".md"] "docs" "other/intro.md" None in
  extension f = ".md"
  /\ extension f' = extension f
  /\ is_documentation_page [".md"] f' = is_documentation_page [".md"] f.
Proof.
  intros f f'.
  destruct (File_root_extension [".md"] "docs" "guide/Intro.MD" None)
    as [Hsplit Hcase]; [reflexivity|].
  destruct Hsplit as (suffix & Hname & Hext & _).
  destruct (Hcase "docs" "other/intro.md" None) as (Heq & Hdoc & _);
    [reflexivity|reflexivity|].
  split; [|split; [exact Heq|exact Hdoc]].
  fold f in Hext. rewrite Hext.
  assert (Hsuffix : suffix = ".MD").
  { change (filename_of "guide/Intro.MD" None) with "Intro.MD" in Hname.
    change (root (File_init [".md"] "docs" "guide/Intro.MD" None))
      with "Intro" in Hname.
    injection Hname as Hname. symmetry. exact Hname. }
  rewrite Hsuffix. reflexivity.
Defined.

(** ** The views of [Files] *)

Lemma filter_three {A} (p1 p2 p3 : A -> bool) l :
  (forall x, In x l ->
     (p1 x = true /\ p2 x = false /\ p3 x = false)
     \/ (p1 x = false /\ p2 x = true /\ p3 x = false)
     \/ (p1 x = false /\ p2 x = false /\ p3 x = true)) ->
  Permutation l (filter p1 l ++ filter p2 l ++ filter p3 l).
Proof.
  induction l as [|x l IH]; intros Hone; simpl; [constructor|].
  assert (IH' := IH (fun y Hy => Hone y (or_intror Hy))).
  destruct (Hone x (or_introl eq_refl))
    as [(-> & -> & ->)|[(-> & -> & ->)|(-> & -> & ->)]]; simpl.
  - constructor. exact IH'.
  - rewrite IH' at 1. apply Permutation_middle.
  - rewrite IH' at 1. rewrite app_assoc.
    rewrite (app_assoc (filter p1 l) (filter p2 l) (x :: filter p3 l)).
    apply Permutation_middle.
Qed.

(** X10: When no extension of a static page is configured as a markdown
    extension, every file is in exactly one of the views
    [documentation_pages], [static_pages] and [media_files]: the three views
    together hold the files of the collection, each once. *)
Theorem Files_views_partition :
  forall (exts : list string) (self : Files),
    (forall e, In e [".html"; ".htm"; ".xml"; ".json"] -> ~ In e exts) ->
    Permutation (Files_iter self)
      (documentation_pages exts self ++ static_pages self
       ++ media_files exts self)
    /\ Files_len self
       = (List.length (documentation_pages exts self)
          + List.length (static_pages self)
          + List.length (media_files exts self))%nat.
Proof.
  intros exts self Hdisjoint.
  assert (Hperm : Permutation (Files_iter self)
                    (documentation_pages exts self ++ static_pages self
                     ++ media_files exts self)).
  { apply filter_three. intros f _.
    unfold is_media_file.
    destruct (is_documentation_page exts f) eqn:Hdoc,
             (is_static_page f) eqn:Hstatic; simpl; auto.
    exfalso. apply mem_In in Hdoc, Hstatic.
    exact (Hdisjoint _ Hstatic Hdoc). }
  split; [exact Hperm|].
  unfold Files_len. fold (Files_iter self).
  rewrite (Permutation_length Hperm), !length_app. lia.
Qed.

Lemma Files_views_partition_witness :
  let exts := [".markdown"; ".mdown"; ".mkdn"; ".mkd"; ".md"] in
  let self :=
    Files_init
      [File_init exts "docs" "index.md" None;
       File_init exts "docs" "img/logo.png" None;
       File_init exts "docs" "search.json" None;
       File_init exts "docs" "about.md" None] in
  Files_len self
  = (List.length (documentation_pages exts self)
     + List.length (static_pages self)
     + List.length (media_files exts self))%nat.
Proof.
  intros exts self.
  apply (Files_views_partition exts self).
  intros e He Hin. simpl in He, Hin.
  repeat (destruct He as [<-|He];
          [repeat (destruct Hin as [Hin|Hin]; [discriminate|]);
           contradiction|]).
  contradiction.
Defined.

(** X11: Scripts and stylesheets are media files, unless their extension is
    configured as a markdown extension. *)
Theorem scripts_and_stylesheets_are_media :
  forall (exts : list string) (self : Files) (f : File),
    (forall e, In e [".js"; ".javascript"; ".css"] -> ~ In e exts) ->
    In f (javascript_files self) \/ In f (css_files self) ->
    In f (media_files exts self).
Proof.
  intros exts self f Hnot Hin.
  unfold javascript_files, css_files, media_files in *.
  rewrite !filter_In in Hin. apply filter_In.
  assert (Hf : In f (Files_iter self)
               /\ In (extension f) [".js"; ".javascript"; ".css"]).
  { destruct Hin as [[Hf Hjs]|[Hf Hcss]]; split; try exact Hf.
    - apply mem_In in Hjs. simpl in *. tauto.
    - apply mem_In in Hcss. simpl in *. tauto. }
  destruct Hf as [Hf Hext]. split; [exact Hf|].
  unfold is_media_file, is_documentation_page, is_static_page.
  assert (Hdoc : str.mem (extension f) exts = false)
    by (apply mem_not_In, Hnot, Hext).
  rewrite Hdoc. simpl in Hext.
  destruct Hext as [<-|[<-|[<-|[]]]]; reflexivity.
Qed.

Lemma scripts_and_stylesheets_are_media_witness :
  let exts := [".md"] in
  let script := File_init exts "docs" "js/App.JS" None in
  let self := Files_init [File_init exts "docs" "index.md" None; script] in
  In script (media_files exts self).
Proof.
  intros exts script self.
  apply (scripts_and_stylesheets_are_media exts self script).
  - intros e He [<-|[]]. simpl in He.
    destruct He as [He|[He|[He|[]]]]; discriminate.
  - left. apply filter_In. split; [right; left; reflexivity|reflexivity].
Defined.

Lemma input_paths_acc (files : list File) : forall d : gmap string File,
  (forall p f,
      fold_left (fun d file => <[input_path file := file]> d) files d !! p
        = Some f ->
      (In f files /\ input_path f = p) \/ d !! p = Some f)
  /\ (forall f, In f files ->
        is_Some (fold_left (fun d file => <[input_path file := file]> d)
                   files d !! input_path f))
  /\ (forall p,
        (forall g, In g files -> input_path g <> p) ->
        fold_left (fun d file => <[input_path file := file]> d) files d !! p
        = d !! p).
Proof.
  induction files as [|g files IH]; intros d; simpl.
  - split; [auto|]. split; [contradiction|]. reflexivity.
  - destruct (IH (<[input_path g := g]> d)) as (IH1 & IH2 & IH3).
    split; [|split].
    + intros p f Hp. destruct (IH1 p f Hp) as [[Hin Heq]|Hd].
      * left. split; [right; exact Hin|exact Heq].
      * destruct (String.eqb_spec (input_path g) p) as [Heq|Hne].
        -- subst p. rewrite lookup_insert_eq in Hd. injection Hd as <-.
           left. split; [left; reflexivity|reflexivity].
        -- rewrite lookup_insert_ne in Hd by exact Hne. right. exact Hd.
    + intros f [<-|Hin]; [|apply IH2; exact Hin].
      destruct (in_dec String.string_dec (input_path g)
                  (map input_path files)) as [Hdup|Hfresh].
      * apply in_map_iff in Hdup. destruct Hdup as (h & Hh & Hin).
        pose proof (IH2 h Hin) as Hs. rewrite Hh in Hs. exact Hs.
      * rewrite IH3.
        -- rewrite lookup_insert_eq. eexists. reflexivity.
        -- intros h Hh Heq. apply Hfresh. rewrite <- Heq.
           apply in_map. exact Hh.
    + intros p Hp. rewrite IH3.
      * apply lookup_insert_ne. apply Hp. left. reflexivity.
      * intros h Hh. apply Hp. right. exact Hh.
Qed.

(** X12: The index [input_paths] of a collection holds exactly the input paths
    of its files: a path is mapped to a file of the collection with that
    input path, every file's input path is mapped, and among files with the
    same input path the last one is the one found. *)
Theorem Files_input_paths_lookup :
  forall (files : list File),
    let self := Files_init files in
    (forall p f, input_paths self !! p = Some f ->
                 In f files /\ input_path f = p)
    /\ (forall f, In f files ->
                  is_Some (input_paths self !! input_path f))
    /\ (forall before f after,
           files = before ++ f :: after ->
           (forall g, In g after -> input_path g <> input_path f) ->
           input_paths self !! input_path f = Some f).
Proof.
  intros files self. unfold self, Files_init. simpl.
  destruct (input_paths_acc files ∅) as (H1 & H2 & _).
  split; [|split].
  - intros p f Hp. destruct (H1 p f Hp) as [H|H]; [exact H|].
    rewrite lookup_empty in H. discriminate.
  - exact H2.
  - intros before f after -> Hafter.
    rewrite fold_left_app. simpl.
    destruct (input_paths_acc after
                (<[input_path f := f]>
                   (fold_left (fun d file => <[input_path file := file]> d)
                      before ∅))) as (_ & _ & H3).
    rewrite H3 by exact Hafter. apply lookup_insert_eq.
Qed.

Lemma Files_input_paths_lookup_witness :
  let exts := [".md"] in
  let first := File_init exts "docs" "a.md" None in
  let second := File_init exts "other" "a.md" None in
  input_paths (Files_init [first; second]) !! "a.md" = Some second.
Proof.
  intros exts first second.
  destruct (Files_input_paths_lookup [first; second]) as (_ & _ & Hlast).
  apply (Hlast [first] second []); [reflexivity|].
  intros g [].
Defined.

(** ** [_filter_paths] with any list of patterns *)

Lemma _filter_paths_cons basename path is_dir item exclude' :
  _filter_paths basename path is_dir (item :: exclude')
  = excludes basename path is_dir item
    || _filter_paths basename path is_dir exclude'.
Proof.
  unfold excludes. cbn [_filter_paths].
  destruct (str.endswith item "/" && negb is_dir); [reflexivity|].
  destruct (fnmatch.fnmatch _ _); reflexivity.
Qed.

Lemma _filter_paths_existsb basename path is_dir exclude' :
  _filter_paths basename path is_dir exclude'
  = existsb (excludes basename path is_dir) exclude'.
Proof.
  induction exclude' as [|item exclude' IH]; [reflexivity|].
  rewrite _filter_paths_cons, IH. reflexivity.
Qed.

(** X13: An entry is excluded when some pattern of the list applies to it: the
    filter over two lists of patterns is the disjunction of the filters
    over each, and the order of the patterns plays no part. *)
Theorem filter_paths_any_pattern :
  forall (basename path : string) (is_dir : bool),
    (forall ex1 ex2,
        _filter_paths basename path is_dir (ex1 ++ ex2)
        = _filter_paths basename path is_dir ex1
          || _filter_paths basename path is_dir ex2)
    /\ (forall ex1 ex2,
           Permutation ex1 ex2 ->
           _filter_paths basename path is_dir ex1
           = _filter_paths basename path is_dir ex2)
    /\ (forall ex,
           _filter_paths basename path is_dir ex = true
           <-> exists item,
                 In item ex
                 /\ _filter_paths basename path is_dir [item] = true).
Proof.
  intros basename path is_dir. split; [|split].
  - intros ex1 ex2. rewrite !_filter_paths_existsb. apply existsb_app.
  - intros ex1 ex2 Hperm. rewrite !_filter_paths_existsb.
    induction Hperm as [|x l1 l2 H IH|x y l|l1 l2 l3 H1 IH1 H2 IH2]; simpl.
    + reflexivity.
    + rewrite IH. reflexivity.
    + destruct (excludes basename path is_dir x),
               (excludes basename path is_dir y); reflexivity.
    + congruence.
  - intros ex. rewrite _filter_paths_existsb, existsb_exists. reflexivity.
Qed.

Lemma filter_paths_any_pattern_witness :
  _filter_paths "notes.bak" "guide/notes.bak" false [".*"; "*.bak"] = true.
Proof.
  destruct (filter_paths_any_pattern "notes.bak" "guide/notes.bak" false)
    as (_ & _ & Hany).
  apply Hany. exists "*.bak". split; [right; left; reflexivity|reflexivity].
Defined.

(** X14: Patterns that end with a slash never exclude a file; whatever the
    patterns, an entry that is excluded as a file is excluded as a directory
    too, and without a pattern that ends with a slash the two agree. *)
Theorem filter_paths_directories :
  forall (basename path : string) (exclude' : list string),
    (Forall (fun item => str.endswith item "/" = true) exclude' ->
     _filter_paths basename path false exclude' = false)
    /\ (_filter_paths basename path false exclude' = true ->
        _filter_paths basename path true exclude' = true)
    /\ (Forall (fun item => str.endswith item "/" = false) exclude' ->
        _filter_paths basename path true exclude'
        = _filter_paths basename path false exclude').
Proof.
  intros basename path exclude'. split; [|split].
  - induction 1 as [|item ex Hitem Hex IH]; [reflexivity|].
    cbn [_filter_paths]. rewrite Hitem. exact IH.
  - induction exclude' as [|item ex IH]; [discriminate|].
    cbn [_filter_paths]. rewrite andb_false_r.
    destruct (str.endswith item "/"); simpl.
    + intros H. rewrite (IH H). destruct (fnmatch.fnmatch _ _); reflexivity.
    + destruct (fnmatch.fnmatch _ _); [reflexivity|exact IH].
  - induction 1 as [|item ex Hitem Hex IH]; [reflexivity|].
    cbn [_filter_paths]. rewrite Hitem, IH. reflexivity.
Qed.

Lemma filter_paths_directories_witness :
  _filter_paths "build" "build" false ["build/"; "tmp/"] = false
  /\ _filter_paths "build" "build" true ["build/"; "tmp/"] = true
  /\ _filter_paths "x.bak" "x.bak" true ["*.bak"] = true
  /\ _filter_paths "x.bak" "x.bak" true ["*.bak"; ".*"]
     = _filter_paths "x.bak" "x.bak" false ["*.bak"; ".*"].
Proof.
  destruct (filter_paths_directories "build" "build" ["build/"; "tmp/"])
    as (Hfile & _ & _).
  destruct (filter_paths_directories "x.bak" "x.bak" ["*.bak"])
    as (_ & Hboth & _).
  destruct (filter_paths_directories "x.bak" "x.bak" ["*.bak"; ".*"])
    as (_ & _ & Hsame).
  split; [|split; [reflexivity|split]].
  - apply Hfile. repeat constructor.
  - apply Hboth. reflexivity.
  - apply Hsame. repeat constructor.
Defined.

(** ** [get_files] *)

Lemma startswith_take q : forall n s,
  str.startswith (str.take n s) q = true -> str.startswith s q = true.
Proof.
  induction q as [|b q IH]; intros n s; [reflexivity|].
  destruct n as [|n], s as [|a s]; simpl; try discriminate.
  intros H. apply andb_prop in H. destruct H as [Hab Hq].
  rewrite Hab, (IH n s Hq). reflexivity.
Qed.

Lemma splitext_root_startswith p q :
  str.startswith (fst (os_path.splitext p)) q = true ->
  str.startswith p q = true.
Proof.
  unfold os_path.splitext. destruct (_ && _); cbn [fst]; [|auto].
  apply startswith_take.
Qed.

(** X15: No hidden file is discovered: the root of a discovered file does not
    start with a dot, and its input path is not empty and is in normal
    form. *)
Theorem get_files_no_hidden_file :
  forall (exts : list string) (from_dir : string) (t : tree) (f : File),
    In f (_files (get_files exts from_dir t)) ->
    str.startswith (root f) "." = false
    /\ os_path.normpath (input_path f) = input_path f
    /\ input_path f <> "".
Proof.
  intros exts from_dir t f Hf. apply walk_filtered in Hf.
  destruct Hf as (rel & filename & Hinit & Hkeep).
  rewrite _filter_paths_default in Hkeep.
  apply orb_false_elim in Hkeep. destruct Hkeep as [Hdot _].
  destruct (File_init_fields exts from_dir
              (os_path.normpath (os_path.join rel filename))
              (Some filename)) as (Hroot & _ & Hin & _).
  rewrite <- Hinit in Hroot, Hin. simpl filename_of in Hroot.
  split; [|rewrite Hin; split;
           [apply normpath_idempotent|apply normpath_nonempty]].
  destruct (str.startswith (root f) ".") eqn:Hr; [|reflexivity].
  rewrite Hroot in Hr. apply splitext_root_startswith in Hr.
  congruence.
Qed.

Lemma get_files_no_hidden_file_witness :
  let t := Dir [] [".hidden.md"; "index.md"] in
  map input_path (_files (get_files [".md"] "docs" t)) = ["index.md"]
  /\ str.startswith
       (root (File_init [".md"] "docs" "index.md" (Some "index.md"))) "."
     = false.
Proof.
  intros t. split; [reflexivity|].
  apply (get_files_no_hidden_file [".md"] "docs" t).
  left. reflexivity.
Defined.

(** X16: A directory whose name starts with a dot is not visited, at any depth,
    and neither is the directory [templates] of the source root: the
    discovered files are those of the tree without that directory. *)
Theorem get_files_prunes_directories :
  forall (exts : list string) (from_dir : string)
         (dirs1 dirs2 : list (string * tree)) (name : string)
         (t : tree) (filenames : list string),
    (str.startswith name "." = true ->
     forall names,
       walk exts from_dir names (Dir (dirs1 ++ (name, t) :: dirs2) filenames)
       = walk exts from_dir names (Dir (dirs1 ++ dirs2) filenames))
    /\ (name = "templates" ->
        get_files exts from_dir (Dir (dirs1 ++ (name, t) :: dirs2) filenames)
        = get_files exts from_dir (Dir (dirs1 ++ dirs2) filenames)).
Proof.
  intros exts from_dir dirs1 dirs2 name t filenames.
  assert (Hgen : forall names,
             _filter_paths name
               (os_path.normpath (os_path.join (relpath names) name))
               true exclude = true ->
             walk exts from_dir names
               (Dir (dirs1 ++ (name, t) :: dirs2) filenames)
             = walk exts from_dir names (Dir (dirs1 ++ dirs2) filenames)).
  { intros names Hex. rewrite !walk_Dir, !map_app, !filter_app.
    cbn [map filter fst snd]. rewrite Hex. reflexivity. }
  split.
  - intros Hdot names. apply Hgen.
    rewrite _filter_paths_default, Hdot. reflexivity.
  - intros ->. unfold get_files. f_equal. apply Hgen. reflexivity.
Qed.

Lemma get_files_prunes_directories_witness :
  let inside := Dir [] ["config.md"] in
  map input_path
    (_files (get_files [".md"] "docs"
               (Dir [("guide", Dir [(".git", inside)] ["a.md"]);
                     ("templates", inside)] ["index.md"])))
  = ["index.md"; "guide/a.md"].
Proof.
  intros inside.
  destruct (get_files_prunes_directories [".md"] "docs"
              [("guide", Dir [(".git", inside)] ["a.md"])] []
              "templates" inside ["index.md"]) as [_ Htemplates].
  pose proof (Htemplates eq_refl) as Hpruned. cbn [app] in Hpruned.
  rewrite Hpruned. reflexivity.
Defined.

(** ** Output paths of documentation pages *)

Lemma append_String a s t : (String a s ++ t)%string = String a (s ++ t).
Proof. reflexivity. Qed.

Lemma append_empty_l t : ("" ++ t)%string = t.
Proof. reflexivity. Qed.

Lemma append_assoc a b c : ((a ++ b) ++ c)%string = (a ++ (b ++ c))%string.
Proof.
  induction a as [|x a IH]; [reflexivity|].
  change (String x ((a ++ b) ++ c) = String x (a ++ (b ++ c))).
  f_equal. exact IH.
Qed.

Lemma rfind_nosep s : nosep s = true -> str.rfind os_path.sep s = -1.
Proof.
  induction s as [|a s IH]; [reflexivity|].
  cbn [nosep str.rfind]. intros H. apply andb_prop in H.
  destruct H as [Ha Hs]. apply negb_true_iff in Ha.
  rewrite (IH Hs), Ha. reflexivity.
Qed.

Lemma rfind_app s c :
  nosep c = true ->
  str.rfind os_path.sep (s ++ String os_path.sep c)
  = Z.of_nat (String.length s).
Proof.
  intros Hc. induction s as [|a s IH].
  - rewrite append_empty_l. cbn [str.rfind].
    rewrite (rfind_nosep c Hc). reflexivity.
  - rewrite append_String. cbn [str.rfind String.length]. rewrite IH.
    assert (Hne : (Z.of_nat (String.length s) =? -1) = false)
      by (apply Z.eqb_neq; lia).
    rewrite Hne. lia.
Qed.

Lemma drop_app_S s a c :
  str.drop (S (String.length s)) (s ++ String a c) = c.
Proof. induction s as [|x s IH]; [reflexivity|exact IH]. Qed.

Lemma take_app_S s a c :
  str.take (S (String.length s)) (s ++ String a c) = (s ++ String a "")%string.
Proof.
  induction s as [|x s IH]; [reflexivity|].
  change (String x (str.take (S (String.length s)) (s ++ String a c))
          = String x (s ++ String a "")).
  f_equal. exact IH.
Qed.

(** The text in front of a last component: empty, or ending with a
    separator. *)
Lemma basename_prefixed pre c :
  nosep c = true ->
  pre = "" \/ (exists s, pre = (s ++ String os_path.sep "")%string) ->
  os_path.basename (pre ++ c) = c.
Proof.
  intros Hc [->|[s ->]]; unfold os_path.basename.
  - rewrite append_empty_l, (rfind_nosep c Hc). destruct c; reflexivity.
  - rewrite append_assoc, append_String, append_empty_l.
    rewrite (rfind_app s c Hc).
    replace (Z.to_nat (Z.of_nat (String.length s) + 1))
      with (S (String.length s)) by lia.
    apply drop_app_S.
Qed.

Lemma dirname_prefixed pre c c' :
  nosep c = true -> nosep c' = true ->
  pre = "" \/ (exists s, pre = (s ++ String os_path.sep "")%string) ->
  os_path.dirname (pre ++ c) = os_path.dirname (pre ++ c').
Proof.
  intros Hc Hc' [->|[s ->]]; unfold os_path.dirname.
  - rewrite !append_empty_l, (rfind_nosep c Hc), (rfind_nosep c' Hc').
    destruct c, c'; reflexivity.
  - rewrite !append_assoc, !append_String, !append_empty_l.
    rewrite (rfind_app s c Hc), (rfind_app s c' Hc').
    replace (Z.to_nat (Z.of_nat (String.length s) + 1))
      with (S (String.length s)) by lia.
    rewrite !take_app_S. reflexivity.
Qed.

Lemma endswith_sep d :
  str.endswith d os_path.sep = true ->
  exists s, d = (s ++ String os_path.sep "")%string.
Proof.
  induction d as [|a d IH]; [discriminate|].
  destruct d as [|b d].
  - cbn [str.endswith]. intros H. apply Ascii.eqb_eq in H. subst a.
    exists "". reflexivity.
  - intros H. destruct (IH H) as [s Hs]. exists (String a s).
    rewrite Hs. reflexivity.
Qed.

Lemma join_app d c :
  str.startswith c "/" = false ->
  os_path.join d c = (os_path.join d "" ++ c)%string.
Proof.
  intros Hc. unfold os_path.join. rewrite Hc.
  change (str.startswith "" "/") with false. cbv iota.
  destruct (String.eqb d "" || str.endswith d os_path.sep).
  - rewrite append_empty_r. reflexivity.
  - rewrite append_assoc. reflexivity.
Qed.

Lemma join_dir_form d :
  os_path.join d "" = ""
  \/ exists s, os_path.join d "" = (s ++ String os_path.sep "")%string.
Proof.
  unfold os_path.join. change (str.startswith "" "/") with false. cbv iota.
  destruct (String.eqb_spec d "") as [->|Hd]; [left; reflexivity|].
  cbn [orb]. destruct (str.endswith d os_path.sep) eqn:He.
  - right. rewrite append_empty_r. apply endswith_sep. exact He.
  - right. exists d. reflexivity.
Qed.

Lemma split_nonempty s : str.split os_path.sep s <> [].
Proof.
  destruct s as [|a s]; [discriminate|]. cbn [str.split].
  destruct (Ascii.eqb a os_path.sep); [discriminate|].
  destruct (str.split os_path.sep s); discriminate.
Qed.

Lemma split_app_sep s c :
  str.split os_path.sep (s ++ String os_path.sep c)
  = str.split os_path.sep s ++ str.split os_path.sep c.
Proof.
  induction s as [|a s IH]; [reflexivity|].
  rewrite append_String. cbn [str.split]. rewrite IH.
  destruct (Ascii.eqb a os_path.sep); [reflexivity|].
  pose proof (split_nonempty s) as Hne.
  destruct (str.split os_path.sep s) as [|h t]; [contradiction|reflexivity].
Qed.

Lemma join_snoc acc c :
  str.join "/" (acc ++ [c])
  = match acc with
    | [] => c
    | _ => (str.join "/" acc ++ String os_path.sep c)%string
    end.
Proof.
  induction acc as [|a acc IH]; [reflexivity|].
  destruct acc as [|b acc]; [reflexivity|].
  change (str.join "/" ((a :: b :: acc) ++ [c]))
    with (a ++ String os_path.sep (str.join "/" ((b :: acc) ++ [c])))%string.
  rewrite IH.
  change (str.join "/" (a :: b :: acc))
    with (a ++ String os_path.sep (str.join "/" (b :: acc)))%string.
  rewrite append_assoc. reflexivity.
Qed.

Lemma append_nonempty pre c : c <> "" -> (pre ++ c)%string <> "".
Proof.
  intros Hc. destruct pre; [exact Hc|discriminate].
Qed.

(** The last component of a path, when [normpath] keeps it, is the last
    component of the normalized path. *)
Lemma normpath_last p comps c :
  str.split os_path.sep p = comps ++ [c] ->
  plain c ->
  os_path.basename (os_path.normpath p) = c.
Proof.
  intros Hsplit (Hsep & H1 & H2 & H3). unfold os_path.normpath.
  destruct (String.eqb_spec p "") as [->|_].
  { exfalso. destruct comps as [|x comps']; simpl in Hsplit.
    - injection Hsplit as Hc. apply H1. symmetry. exact Hc.
    - injection Hsplit as _ Hrest. destruct comps'; discriminate Hrest. }
  rewrite Hsplit, fold_left_app. cbn [fold_left].
  set (k := os_path.initial_slashes p).
  set (acc := fold_left (os_path.normpath_step k) comps []).
  rewrite step_push by auto. rewrite join_snoc.
  assert (Hq : exists pre,
             (pre = ""
              \/ exists s, pre = (s ++ String os_path.sep "")%string)
             /\ (str.repeat os_path.sep k
                 ++ match acc with
                    | [] => c
                    | _ => str.join "/" acc ++ String os_path.sep c
                    end)%string
                = (pre ++ c)%string).
  { destruct acc as [|a acc'].
    - exists (str.repeat os_path.sep k). split; [|reflexivity].
      pose proof (initial_slashes_bound p) as Hk. fold k in Hk.
      destruct k as [|[|[|k]]]; [left; reflexivity| | |lia].
      + right. exists "". reflexivity.
      + right. exists "/". reflexivity.
    - exists ((str.repeat os_path.sep k ++ str.join "/" (a :: acc'))
              ++ String os_path.sep "")%string.
      split; [right; eexists; reflexivity|].
      rewrite !append_assoc. reflexivity. }
  destruct Hq as (pre & Hpre & ->).
  assert (Hne : String.eqb (pre ++ c) "" = false)
    by (apply String.eqb_neq, append_nonempty; exact H1).
  rewrite Hne. apply basename_prefixed; assumption.
Qed.

Lemma plain_index_html : plain "index.html".
Proof. repeat split; discriminate. Qed.

(** X8: Every documentation page is written to a file named [index.html]. *)
Theorem documentation_page_is_index_html :
  forall (exts : list string) (from_dir path : string)
         (filename : option string),
    let f := File_init exts from_dir path filename in
    is_documentation_page exts f = true ->
    os_path.basename (output_path f) = "index.html".
Proof.
  intros exts from_dir path filename f Hdoc.
  unfold f. rewrite File_init_output_path. fold f.
  unfold get_output_path. rewrite Hdoc.
  set (directory := if str.mem (root f) ["index"; "README"]
                    then os_path.dirname (input_path f)
                    else fst (os_path.splitext (input_path f))).
  rewrite (join_app directory "index.html") by reflexivity.
  destruct (join_dir_form directory) as [->|[s ->]].
  - reflexivity.
  - rewrite append_assoc, append_String, append_empty_l.
    apply (normpath_last _ (str.split os_path.sep s)); [|apply plain_index_html].
    rewrite split_app_sep. reflexivity.
Qed.

Lemma documentation_page_is_index_html_witness :
  os_path.basename
    (output_path (File_init [".md"] "docs" "../a//b/./Guide.MD" None))
  = "index.html".
Proof.
  apply (documentation_page_is_index_html [".md"] "docs"
           "../a//b/./Guide.MD" None).
  reflexivity.
Defined.

(** X9: [index.md] and [README.md] of one directory are written to the same
    output path. *)
Theorem index_and_README_share_output_path :
  forall (exts : list string) (from_dir directory : string),
    str.mem ".md" exts = true ->
    let index := File_init exts from_dir
                   (os_path.join directory "index.md") None in
    let readme := File_init exts from_dir
                    (os_path.join directory "README.md") None in
    is_documentation_page exts index = true
    /\ is_documentation_page exts readme = true
    /\ output_path index = output_path readme.
Proof.
  intros exts from_dir directory Hmd index readme.
  assert (Hfields : forall c,
             nosep c = true -> str.startswith c "/" = false ->
             let f := File_init exts from_dir (os_path.join directory c) None in
             root f = fst (os_path.splitext c)
             /\ extension f = str.lower (snd (os_path.splitext c))
             /\ input_path f = (os_path.join directory "" ++ c)%string).
  { intros c Hc Hs f.
    destruct (File_init_fields exts from_dir (os_path.join directory c) None)
      as (Hroot & Hext & Hin & _).
    fold f in Hroot, Hext, Hin. cbn [filename_of] in Hroot, Hext.
    rewrite (join_app directory c Hs) in Hroot, Hext, Hin.
    rewrite (basename_prefixed _ c Hc (join_dir_form directory))
      in Hroot, Hext.
    auto. }
  destruct (Hfields "index.md" eq_refl eq_refl) as (Hr1 & He1 & Hi1).
  destruct (Hfields "README.md" eq_refl eq_refl) as (Hr2 & He2 & Hi2).
  fold index in Hr1, He1, Hi1. fold readme in Hr2, He2, Hi2.
  assert (Hd1 : is_documentation_page exts index = true)
    by (unfold is_documentation_page; rewrite He1; exact Hmd).
  assert (Hd2 : is_documentation_page exts readme = true)
    by (unfold is_documentation_page; rewrite He2; exact Hmd).
  split; [exact Hd1|]. split; [exact Hd2|].
  unfold index at 1, readme at 1. rewrite !File_init_output_path.
  fold index. fold readme. unfold get_output_path.
  rewrite Hd1, Hd2, Hr1, Hr2, Hi1, Hi2.
  change (str.mem (fst (os_path.splitext "index.md")) ["index"; "README"])
    with true.
  change (str.mem (fst (os_path.splitext "README.md")) ["index"; "README"])
    with true.
  cbv iota.
  rewrite (dirname_prefixed _ "index.md" "README.md" eq_refl eq_refl
             (join_dir_form directory)).
  reflexivity.
Qed.

Lemma index_and_README_share_output_path_witness :
  output_path (File_init [".md"] "docs" "guide/index.md" None)
  = output_path (File_init [".md"] "docs" "guide/README.md" None).
Proof.
  apply (index_and_README_share_output_path [".md"] "docs" "guide").
  reflexivity.
Defined.

(** * Further properties of the plugin configuration *)

Lemma validate_scheme_valid options scheme :
  List.NoDup (map plugins.key scheme) ->
  (forall e raw,
      In e scheme -> options !! plugins.key e = Some raw ->
      exists v, plugins.validator e raw = inr v) ->
  forall c : gmap string plugins.value,
    snd (plugins.validate_scheme scheme options c) = []
    /\ forall e,
         In e scheme ->
         fst (plugins.validate_scheme scheme options c) !! plugins.key e
         = Some match options !! plugins.key e with
                | Some raw =>
                    match plugins.validator e raw with
                    | inr v => v
                    | inl _ => plugins.default e
                    end
                | None => plugins.default e
                end.
Proof.
  induction scheme as [|h scheme IH]; intros Hnd Hvalid c.
  - split; [reflexivity|contradiction].
  - simpl in Hnd. apply NoDup_cons_iff in Hnd. destruct Hnd as [Hfresh Hnd].
    assert (Hvalid' : forall e raw,
               In e scheme -> options !! plugins.key e = Some raw ->
               exists v, plugins.validator e raw = inr v)
      by (intros e raw He; apply Hvalid; right; exact He).
    assert (Hkeep : forall c' : gmap string plugins.value,
               fst (plugins.validate_scheme scheme options c')
                 !! plugins.key h
               = c' !! plugins.key h).
    { intros c'. apply validate_scheme_lookup.
      intros e He Hkey. exfalso. apply Hfresh. rewrite <- Hkey.
      apply in_map. exact He. }
    cbn [plugins.validate_scheme].
    destruct (options !! plugins.key h) as [raw|] eqn:Hraw.
    + destruct (Hvalid h raw (or_introl eq_refl) Hraw) as [v Hv].
      rewrite Hv.
      destruct (IH Hnd Hvalid' (<[plugins.key h := v]> c)) as [Herr Hcfg].
      split; [exact Herr|].
      intros e [<-|He]; [|apply Hcfg; exact He].
      rewrite Hkeep, Hraw, Hv. apply lookup_insert_eq.
    + destruct (IH Hnd Hvalid'
                  (<[plugins.key h := plugins.default h]> c))
        as [Herr Hcfg].
      split; [exact Herr|].
      intros e [<-|He]; [|apply Hcfg; exact He].
      rewrite Hkeep, Hraw. apply lookup_insert_eq.
Qed.

(** X18: When every key of [options] is declared by the scheme and every value
    passes its validator, [load_config] gives no error and no warning, and
    [config] holds exactly the declared keys, each with the validated value
    of the option or, without an option, with the default. *)
Theorem load_config_valid_options :
  forall (A C : Type) (self : plugins.Plugin A C)
         (options : gmap string plugins.value),
    let scheme := plugins.config_scheme (plugins.class self) in
    let loaded := plugins.load_config self options in
    List.NoDup (map plugins.key scheme) ->
    (forall k raw,
        options !! k = Some raw ->
        In k (map plugins.key scheme)
        /\ forall e, In e scheme -> plugins.key e = k ->
                     exists v, plugins.validator e raw = inr v) ->
    fst (snd loaded) = []
    /\ snd (snd loaded) = []
    /\ (forall e,
           In e scheme ->
           plugins.config (fst loaded) !! plugins.key e
           = Some match options !! plugins.key e with
                  | Some raw =>
                      match plugins.validator e raw with
                      | inr v => v
                      | inl _ => plugins.default e
                      end
                  | None => plugins.default e
                  end)
    /\ (forall k, ~ In k (map plugins.key scheme) ->
                  plugins.config (fst loaded) !! k = None).
Proof.
  intros A C self options scheme loaded Hnd Hvalid.
  unfold loaded. rewrite load_config_unfold. fold scheme.
  cbn [fst snd plugins.config].
  destruct (validate_scheme_valid options scheme Hnd) with
    (c := plugins.defaults scheme) as [Herr Hcfg].
  { intros e raw He Hraw. destruct (Hvalid _ _ Hraw) as [_ Hv].
    apply Hv; [exact He|reflexivity]. }
  split; [exact Herr|]. split; [|split; [exact Hcfg|]].
  - unfold plugins.unknown_keys.
    rewrite (filter_nil_iff _ (map_to_list options)); [reflexivity|].
    intros [k raw] Hin. apply list_elem_of_In, elem_of_map_to_list in Hin.
    destruct (Hvalid k raw Hin) as [Hk _]. apply mem_In in Hk.
    cbn [fst]. rewrite Hk. reflexivity.
  - intros k Hk. rewrite validate_scheme_lookup.
    + unfold plugins.defaults. rewrite defaults_acc_other by exact Hk.
      apply lookup_empty.
    + intros e He Hkey. exfalso. apply Hk. rewrite <- Hkey.
      apply in_map. exact He.
Qed.

Lemma load_config_valid_options_witness :
  let loaded :=
    plugins.load_config (plugins.new plugins.DummyPlugin)
      {[ "foo" := plugins.VStr "some value" ]} in
  fst (snd loaded) = []
  /\ snd (snd loaded) = []
  /\ plugins.config (fst loaded) !! "foo" = Some (plugins.VStr "some value")
  /\ plugins.config (fst loaded) !! "bar" = Some (plugins.VInt 0).
Proof.
  intros loaded.
  destruct (load_config_valid_options string unit
              (plugins.new plugins.DummyPlugin)
              {[ "foo" := plugins.VStr "some value" ]})
    as (Herr & Hwarn & Hcfg & _).
  - simpl. repeat constructor; simpl; intuition discriminate.
  - intros k raw Hk.
    destruct (String.eqb_spec k "foo") as [->|Hne].
    + rewrite lookup_singleton_eq in Hk. injection Hk as <-.
      split; [left; reflexivity|].
      intros e [<-|[<-|[]]] Hkey; [eexists; reflexivity|discriminate].
    + rewrite lookup_singleton_ne in Hk by congruence. discriminate.
  - split; [exact Herr|]. split; [exact Hwarn|]. split.
    + apply (Hcfg (plugins.Type_str "default foo" "foo")). left. reflexivity.
    + apply (Hcfg (plugins.Type_int 0 "bar")). right. left. reflexivity.
Defined.

(** * Further properties of discovery and classification *)

Lemma rfind_lower c s : -1 <= str.rfind c s.
Proof.
  induction s as [|a s IH]; cbn [str.rfind]; [lia|].
  destruct (str.rfind c s =? -1) eqn:E.
  - destruct (Ascii.eqb a c); lia.
  - lia.
Qed.

(** X7: A filename without a dot has no extension: the whole name is the root,
    and the file is a media file that is neither a script nor a stylesheet,
    unless the empty extension is configured as a markdown extension. *)
Theorem File_without_extension :
  forall (exts : list string) (from_dir path : string)
         (filename : option string),
    let f := File_init exts from_dir path filename in
    str.rfind "." (filename_of path filename) = -1 ->
    root f = filename_of path filename
    /\ extension f = ""
    /\ (str.mem "" exts = false ->
        is_media_file exts f = true
        /\ is_javascript f = false
        /\ is_css f = false).
Proof.
  intros exts from_dir path filename f Hdot.
  destruct (File_init_fields exts from_dir path filename)
    as (Hroot & Hext & _ & _).
  fold f in Hroot, Hext.
  assert (Hsplit : os_path.splitext (filename_of path filename)
                   = (filename_of path filename, "")).
  { unfold os_path.splitext. unfold os_path.extsep. rewrite Hdot.
    pose proof (rfind_lower os_path.sep (filename_of path filename)) as Hlow.
    assert (Hlt : (str.rfind os_path.sep (filename_of path filename) <? -1)
                  = false) by (apply Z.ltb_ge; lia).
    rewrite Hlt. reflexivity. }
  rewrite Hsplit in Hroot, Hext. cbn [fst snd str.lower] in Hroot, Hext.
  split; [exact Hroot|]. split; [exact Hext|].
  intros Hempty.
  unfold is_media_file, is_documentation_page, is_static_page,
    is_javascript, is_css.
  rewrite Hext, Hempty. repeat split.
Qed.

Lemma File_without_extension_witness :
  let f := File_init [".md"] "docs" "guide/Makefile" None in
  root f = "Makefile" /\ extension f = ""
  /\ is_media_file [".md"] f = true.
Proof.
  intros f.
  destruct (File_without_extension [".md"] "docs" "guide/Makefile" None)
    as (Hroot & Hext & Hmedia); [reflexivity|].
  split; [exact Hroot|]. split; [exact Hext|].
  apply Hmedia. reflexivity.
Defined.

Lemma ordered_unique_in {A} (lt : A -> A -> bool) : forall l1 l2,
  (forall x y, In x l1 -> In y l1 ->
               lt x y = false -> lt y x = false -> x = y) ->
  Permutation l1 l2 -> ordered lt l1 -> ordered lt l2 -> l1 = l2.
Proof.
  unfold ordered.
  induction l1 as [|a l1 IH]; intros l2 Htotal Hperm H1 H2.
  - apply Permutation_nil in Hperm. subst. reflexivity.
  - destruct l2 as [|b l2].
    + apply Permutation_sym, Permutation_nil in Hperm. discriminate.
    + apply StronglySorted_inv in H1, H2.
      destruct H1 as [H1 Ha], H2 as [H2 Hb].
      rewrite Forall_forall in Ha, Hb.
      assert (Hin1 : In a (b :: l2))
        by (eapply Permutation_in; [exact Hperm | left; reflexivity]).
      assert (Hin2 : In b (a :: l1))
        by (eapply Permutation_in;
            [apply Permutation_sym; exact Hperm | left; reflexivity]).
      assert (Hab : a = b).
      { destruct Hin1 as [Heq|Hin1]; [congruence|].
        destruct Hin2 as [Heq|Hin2']; [congruence|].
        apply Htotal;
          [left; reflexivity | right; exact Hin2'
          | apply Hb; exact Hin1 | apply Ha; exact Hin2']. }
      subst b. f_equal. apply IH; [| |assumption|assumption].
      * intros x y Hx Hy. apply Htotal; right; assumption.
      * eapply Permutation_cons_inv. exact Hperm.
Qed.

Lemma NoDup_fst_eq {A B} (l : list (A * B)) x y :
  List.NoDup (map fst l) -> In x l -> In y l -> fst x = fst y -> x = y.
Proof.
  induction l as [|h l IH]; intros Hnd Hx Hy Heq; [contradiction|].
  simpl in Hnd. apply NoDup_cons_iff in Hnd. destruct Hnd as [Hfresh Hnd].
  destruct Hx as [->|Hx], Hy as [->|Hy].
  - reflexivity.
  - exfalso. apply Hfresh. rewrite Heq. apply in_map. exact Hy.
  - exfalso. apply Hfresh. rewrite <- Heq. apply in_map. exact Hx.
  - apply IH; assumption.
Qed.

(** X17: The discovered files and their order do not depend on the order in
    which a directory listing gives the sub-directories, nor on the order in
    which it gives the filenames, except for the order among index files. *)
Theorem get_files_listing_order :
  forall (exts : list string) (from_dir : string) (names : list string)
         (dirs1 dirs2 : list (string * tree))
         (filenames1 filenames2 : list string),
    List.NoDup (map fst dirs1) ->
    Permutation dirs1 dirs2 ->
    Permutation filenames1 filenames2 ->
    filter is_index filenames1 = filter is_index filenames2 ->
    walk exts from_dir names (Dir dirs1 filenames1)
    = walk exts from_dir names (Dir dirs2 filenames2).
Proof.
  intros exts from_dir names dirs1 dirs2 filenames1 filenames2
         Hnd Hdirs Hfiles Hindex.
  rewrite !walk_Dir. f_equal.
  - unfold walk_files.
    rewrite (sort_files_Permutation _ _ Hfiles Hindex). reflexivity.
  - f_equal.
    set (below := fun d : string * tree =>
                    (fst d, walk exts from_dir (names ++ [fst d]) (snd d))).
    set (keep := fun d : string * list File =>
                   negb (_filter_paths (fst d)
                           (os_path.normpath
                              (os_path.join (relpath names) (fst d)))
                           true exclude)).
    set (lt := fun d1 d2 : string * list File =>
                 String.ltb (fst d1) (fst d2)).
    assert (Hasym : forall x y, lt x y = true -> lt y x = false)
      by (intros x y; apply ltb_asym).
    assert (Htrans : forall x y z,
               lt x y = true -> lt y z = true -> lt x z = true)
      by (intros x y z; apply ltb_trans).
    apply ordered_unique_in with (lt := lt).
    + assert (Hnd' : List.NoDup (map fst (map below dirs1))).
      { rewrite map_map. exact Hnd. }
      intros x y Hx Hy Hxy Hyx.
      apply (NoDup_fst_eq (map below dirs1) x y Hnd').
      * eapply Permutation_in in Hx; [|apply sorted_Permutation].
        apply filter_In in Hx. apply Hx.
      * eapply Permutation_in in Hy; [|apply sorted_Permutation].
        apply filter_In in Hy. apply Hy.
      * apply ltb_total; assumption.
    + rewrite !sorted_Permutation.
      apply filter_Permutation, Permutation_map, Hdirs.
    + apply sorted_ordered; assumption.
    + apply sorted_ordered; assumption.
Qed.

Lemma get_files_listing_order_witness :
  let api := Dir [] ["b.md"; "a.md"] in
  let guide := Dir [] ["index.md"] in
  walk [".md"] "docs" [] (Dir [("guide", guide); ("api", api)]
                             ["z.md"; "index.md"; "about.md"])
  = walk [".md"] "docs" [] (Dir [("api", api); ("guide", guide)]
                               ["about.md"; "z.md"; "index.md"]).
Proof.
  intros api guide.
  apply get_files_listing_order.
  - simpl. repeat constructor; simpl; intuition discriminate.
  - apply perm_swap.
  - apply (perm_trans (l' := ["z.md"; "about.md"; "index.md"]));
      [apply perm_skip, perm_swap | apply perm_swap].
  - reflexivity.
Defined.
